(** * keras/trainers/data_adapters/generator_data_adapter.py

    A shallow embedding of [GeneratorDataAdapter] and of the helpers of its
    module ([peek_and_restore], [is_scipy_sparse],
    [scipy_sparse_to_tf_sparse]), followed by the properties of the adapter.

    Python objects that the adapter only reads are plain values; the objects it
    advances (the caller's generator and the [itertools.chain] built over it)
    live in a store and are named by their location, so that every view of
    the adapter pulls from the same underlying generator. *)

From stdpp Require Import gmap strings list fin_maps.

Set Default Proof Using "Type".
Set Warnings "-register-all".

(** ** Python values *)

(** A dimension of a shape; [None] is an unknown dimension. *)
Definition dim := option nat.

(** What [x.tocoo()] returns: a scipy COO matrix with its four attributes
    [row], [col], [data], [shape] (and the dtype of [data]).  Array elements
    are kept as integers: the element value, or its bit pattern. *)
Record coo_matrix := {
  coo_row : list Z;
  coo_col : list Z;
  coo_data : list Z;
  coo_shape : list nat;
  coo_dtype : string
}.

(** The TensorFlow classes that the module tests with [isinstance]. *)
Inductive tf_class := TfRaggedTensor | TfSparseTensor | OtherClass.

Global Instance tf_class_eq_dec : EqDecision tf_class.
Proof. solve_decision. Defined.

(** The stored values of an array-like object. *)
Inductive contents :=
  | Dense (values : list Z)
  | Sparse (indices : list (list Z)) (values : list Z) (dense_shape : list nat)
  | Opaque.

(** An array-like leaf of a batch, through the attributes that the module
    reads: [x.__class__.__module__], the [isinstance] tests, [x.shape],
    [x.dtype], and whether [x] has a [tocoo] method ([Some c]: it has, and
    [x.tocoo()] returns [c]). *)
Record pyobj := {
  class_module : string;
  tf_type : tf_class;
  shape : list dim;
  dtype : string;
  tocoo : option coo_matrix;
  payload : contents
}.

(** The containers that [tree.map_structure] traverses.  A dict is given by
    its keys in sorted order, the order in which [tree] visits its values. *)
Inductive container := CTuple | CList | CDict (keys : list string).

(** A nested structure with leaves in [A]. *)
Inductive tree (A : Type) :=
  | Leaf (a : A)
  | Node (c : container) (children : list (tree A)).
Arguments Leaf {A} a.
Arguments Node {A} c children.

(** A Python value that a generator yields. *)
Definition pyval := tree pyobj.

(** ** Exceptions *)

(** A message of an f-string: literal text, the rendering of a value, and
    the rendering of a number. *)
Inductive fragment :=
  | Text (s : string)
  | Repr (v : pyval)
  | Num (n : nat).

Inductive exn :=
  | StopIteration
  | ValueError (msg : list fragment)
  | TypeError (msg : list fragment)
  | AttributeError (name : string).

Inductive result (A : Type) :=
  | Ok (a : A)
  | Err (e : exn).
Arguments Ok {A} a.
Arguments Err {A} e.

Definition bind {A B} (r : result A) (k : A -> result B) : result B :=
  match r with
  | Ok a => k a
  | Err e => Err e
  end.

Notation "'let*' x ':=' r 'in' k" := (bind r (fun x => k))
  (at level 10, x name, r at level 100, k at level 200).

(** ** [tree.map_structure] *)

(** [func] is applied to the leaves from left to right; the first exception
    ends the traversal, otherwise the result has the structure of the
    argument. *)
Fixpoint map_structure {A B} (func : A -> result B) (structure : tree A)
    : result (tree B) :=
  match structure with
  | Leaf a => let* b := func a in Ok (Leaf b)
  | Node c children =>
      let* children' :=
        (fix go (l : list (tree A)) : result (list (tree B)) :=
           match l with
           | [] => Ok []
           | x :: l' =>
               let* y := map_structure func x in
               let* ys := go l' in
               Ok (y :: ys)
           end) children in
      Ok (Node c children')
  end.

(** The same traversal of a list of structures. *)
Fixpoint map_structures {A B} (func : A -> result B) (l : list (tree A))
    : result (list (tree B)) :=
  match l with
  | [] => Ok []
  | x :: l' =>
      let* y := map_structure func x in
      let* ys := map_structures func l' in
      Ok (y :: ys)
  end.

(** The leaves of a structure, in the order of the traversal. *)
Fixpoint flatten {A} (structure : tree A) : list A :=
  match structure with
  | Leaf a => [a]
  | Node _ children =>
      (fix go (l : list (tree A)) : list A :=
         match l with
         | [] => []
         | x :: l' => flatten x ++ go l'
         end) children
  end.

(** A structure with a total function applied to every leaf. *)
Fixpoint tree_map {A B} (f : A -> B) (structure : tree A) : tree B :=
  match structure with
  | Leaf a => Leaf (f a)
  | Node c children => Node c (map (tree_map f) children)
  end.

(** [isinstance(v, tuple)] *)
Definition is_tuple {A} (v : tree A) : bool :=
  match v with
  | Node CTuple _ => true
  | _ => false
  end.

(** ** Generators and the store *)

Definition loc := nat.

(** A generator object: the value it yields at each step ([None]: it
    returns, and [next] raises [StopIteration]) and the number of steps
    already taken.  The sequence may be finite or not. *)
Record generator_obj := {
  g_body : nat -> option pyval;
  g_pos : nat
}.

Definition advance (o : generator_obj) : generator_obj :=
  {| g_body := g_body o; g_pos := S (g_pos o) |}.

(** The iterables that an [itertools.chain] object still has to go through:
    what is left of a list, or an iterator of the store. *)
Inductive chain_src :=
  | FromList (items : list pyval)
  | FromIter (g : loc).

Record store := {
  gens : gmap loc generator_obj;
  chains : gmap loc (list chain_src)
}.

Definition set_gens (f : gmap loc generator_obj -> gmap loc generator_obj)
    (s : store) : store :=
  {| gens := f (gens s); chains := chains s |}.

Definition set_chains (f : gmap loc (list chain_src) -> gmap loc (list chain_src))
    (s : store) : store :=
  {| gens := gens s; chains := f (chains s) |}.

Definition not_an_iterator : exn :=
  TypeError [Text "object is not an iterator"].

(** [next(generator)] on a generator object. *)
Definition gen_next (g : loc) (s : store) : result pyval * store :=
  match gens s !! g with
  | None => (Err not_an_iterator, s)
  | Some o =>
      match g_body o (g_pos o) with
      | Some v => (Ok v, set_gens <[g := advance o]> s)
      | None => (Err StopIteration, s)
      end
  end.

(** One step of [itertools.chain]: exhausted iterables are dropped, the
    first element found is returned. *)
Fixpoint chain_step (srcs : list chain_src) (s : store)
    : result pyval * list chain_src * store :=
  match srcs with
  | [] => (Err StopIteration, [], s)
  | FromList [] :: rest => chain_step rest s
  | FromList (x :: xs) :: rest => (Ok x, FromList xs :: rest, s)
  | FromIter g :: rest =>
      match gen_next g s with
      | (Ok v, s') => (Ok v, srcs, s')
      | (Err StopIteration, s') => chain_step rest s'
      | (Err e, s') => (Err e, srcs, s')
      end
  end.

(** [next(c)] on a chain object. *)
Definition chain_next (c : loc) (s : store) : result pyval * store :=
  match chains s !! c with
  | None => (Err not_an_iterator, s)
  | Some srcs =>
      let '(r, srcs', s') := chain_step srcs s in
      (r, set_chains <[c := srcs']> s')
  end.

(** ** Module-level functions *)

(** [itertools.chain] of the given iterables: a new chain object. *)
Definition itertools_chain (iterables : list chain_src) (s : store)
    : loc * store :=
  let c := fresh (dom (chains s)) in
  (c, set_chains <[c := iterables]> s).

Definition peek_and_restore (generator : loc) (s : store)
    : result (pyval * loc) * store :=
  match gen_next generator s with
  | (Err e, s') => (Err e, s')
  | (Ok element, s') =>
      let '(c, s'') := itertools_chain [FromList [element]; FromIter generator] s' in
      (Ok (element, c), s'')
  end.

(** [isinstance(x, cls)] for the TensorFlow classes. *)
Definition isinstance (x : pyobj) (cls : tf_class) : bool :=
  bool_decide (tf_type x = cls).

Definition is_scipy_sparse (x : pyobj) : bool :=
  String.prefix "scipy.sparse" (class_module x) && bool_decide (is_Some (tocoo x)).

(** A two-dimensional array of integers: its number of columns and its
    rows.  The number of columns is kept apart, so that an array without rows
    still has its shape. *)
Record array_2d := {
  ncols : nat;
  rows_of : list (list Z)
}.

(** [np.expand_dims(v, axis=1)] of a one-dimensional array: one row per
    element, one column. *)
Definition np_expand_dims_axis1 (v : list Z) : array_2d :=
  {| ncols := 1; rows_of := map (fun i => [i]) v |}.

(** [np.concatenate((a, b), axis=1)] of two two-dimensional arrays: the rows
    are joined pairwise; numpy refuses arrays with different numbers of
    rows. *)
Definition np_concatenate_axis1 (a b : array_2d) : result array_2d :=
  if decide (length (rows_of a) = length (rows_of b)) then
    Ok {| ncols := ncols a + ncols b; rows_of := zip_with app (rows_of a) (rows_of b) |}
  else Err (ValueError
    [Text "all the input array dimensions except for the concatenation axis must match exactly"]).

(** The exception of TensorFlow for two dimensions that differ. *)
Definition not_compatible (d1 d2 : nat) : exn :=
  ValueError [Text "Dimensions "; Num d1; Text " and "; Num d2; Text " are not compatible"].

(** [tf.SparseTensor(indices, values, dense_shape)], with the two checks of
    its constructor: [indices] has as many rows as there are [values], and as
    many columns as [dense_shape] has dimensions. *)
Definition tf_SparseTensor (indices : array_2d) (values : list Z)
    (dense_shape : list nat) (dt : string) : result pyobj :=
  if decide (length (rows_of indices) = length values) then
    if decide (ncols indices = length dense_shape) then
      Ok {| class_module := "tensorflow.python.framework.sparse_tensor";
            tf_type := TfSparseTensor;
            shape := map Some dense_shape;
            dtype := dt;
            tocoo := None;
            payload := Sparse (rows_of indices) values dense_shape |}
    else Err (not_compatible (ncols indices) (length dense_shape))
  else Err (not_compatible (length (rows_of indices)) (length values)).

Definition scipy_sparse_to_tf_sparse (x : pyobj) : result pyobj :=
  match tocoo x with
  | None => Err (AttributeError "tocoo")
  | Some sparse_coo =>
      let row := coo_row sparse_coo in
      let col := coo_col sparse_coo in
      let data := coo_data sparse_coo in
      let shape := coo_shape sparse_coo in
      let* indices :=
        np_concatenate_axis1 (np_expand_dims_axis1 row) (np_expand_dims_axis1 col) in
      tf_SparseTensor indices data shape (coo_dtype sparse_coo)
  end.

(** ** TensorFlow descriptors and datasets *)

Inductive spec_kind := RaggedTensorSpec | SparseTensorSpec | TensorSpec.

(** [tf.RaggedTensorSpec], [tf.SparseTensorSpec] or [tf.TensorSpec] with its
    [shape] and [dtype]. *)
Record type_spec := {
  spec_kind_of : spec_kind;
  spec_shape : list dim;
  spec_dtype : string
}.

(** A Python generator of the form
    [for batch in iterable: yield func(batch)] over a chain object of the
    store.  It is closed once its body has returned or raised. *)
Record batch_iterator := {
  it_source : loc;
  it_func : pyval -> result pyval;
  it_closed : bool
}.

Definition close (it : batch_iterator) : batch_iterator :=
  {| it_source := it_source it; it_func := it_func it; it_closed := true |}.

(** [next(it)] *)
Definition iter_next (it : batch_iterator) (s : store)
    : result pyval * batch_iterator * store :=
  if it_closed it then (Err StopIteration, it, s)
  else
    match chain_next (it_source it) s with
    | (Ok batch, s') =>
        match it_func it batch with
        | Ok b => (Ok b, it, s')
        | Err e => (Err e, close it, s')
        end
    | (Err e, s') => (Err e, close it, s')
    end.

(** The batches of the first [n] calls of [next(it)], up to the first
    exception, with the iterator and the store that they leave. *)
Fixpoint pull (n : nat) (it : batch_iterator) (s : store)
    : list pyval * batch_iterator * store :=
  match n with
  | 0 => ([], it, s)
  | S n' =>
      match iter_next it s with
      | (Ok b, it', s') =>
          let '(bs, it'', s'') := pull n' it' s' in (b :: bs, it'', s'')
      | (Err _, it', s') => ([], it', s')
      end
  end.

(** [tf.data.AUTOTUNE] *)
Definition AUTOTUNE : Z := (-1)%Z.

(** A [tf.data.Dataset] built by [Dataset.from_generator]: the generator
    that produces its elements, the signature it was given, and the size of
    its prefetch buffer, if any. *)
Record tf_dataset := {
  ds_generator : batch_iterator;
  ds_output_signature : option (tree type_spec);
  ds_prefetch : option Z
}.

Definition from_generator (generator : batch_iterator)
    (output_signature : option (tree type_spec)) : tf_dataset :=
  {| ds_generator := generator;
     ds_output_signature := output_signature;
     ds_prefetch := None |}.

Definition prefetch (ds : tf_dataset) (buffer_size : Z) : tf_dataset :=
  {| ds_generator := ds_generator ds;
     ds_output_signature := ds_output_signature ds;
     ds_prefetch := Some buffer_size |}.

(** The sequence that a generator object still has to yield, cut after [n]
    elements. *)
Fixpoint gen_items (body : nat -> option pyval) (pos n : nat) : list pyval :=
  match n with
  | 0 => []
  | S n' =>
      match body pos with
      | Some v => v :: gen_items body (S pos) n'
      | None => []
      end
  end.

(** ** class GeneratorDataAdapter *)

Record GeneratorDataAdapter := {
  generator : loc;
  _first_batch : pyval;
  _output_signature : option (tree type_spec)
}.

Section Adapter.

(** [keras.backend.standardize_dtype]: the canonical name of a dtype, or the
    exception that it raises for a dtype that keras does not accept. *)
Variable standardize_dtype : string -> result string.

(** The array conversions that [keras.trainers.data_adapters.data_adapter_utils]
    applies to each batch for numpy, for JAX and for torch. *)
Variables convert_to_numpy convert_to_jax convert_to_torch : pyval -> pyval.

Definition __init__ (generator : loc) (s : store)
    : result GeneratorDataAdapter * store :=
  match peek_and_restore generator s with
  | (Err e, s') => (Err e, s')
  | (Ok (first_batch, generator), s') =>
      let self :=
        {| generator := generator;
           _first_batch := first_batch;
           _output_signature := None |} in
      if negb (is_tuple first_batch) then
        (Err (ValueError
           [Text "When passing a Python generator to a Keras model, the generator must return a tuple, either (input,) or (inputs, targets) or (inputs, targets, sample_weights). Received: ";
            Repr first_batch]), s')
      else (Ok self, s')
  end.

Definition get_tensor_spec (x : pyobj) : result type_spec :=
  let x_shape := shape x in
  if decide (length x_shape < 1) then
    Err (ValueError
      [Text "When passing a Python generator to a Keras model, the arrays returned by the generator must be at least rank 1. Received: ";
       Repr (Leaf x); Text " of rank "; Num (length (shape x))])
  else
    let x_shape := <[0 := None]> x_shape in
    let* x_dtype := standardize_dtype (dtype x) in
    if isinstance x TfRaggedTensor then
      Ok {| spec_kind_of := RaggedTensorSpec; spec_shape := x_shape; spec_dtype := x_dtype |}
    else if isinstance x TfSparseTensor || is_scipy_sparse x then
      Ok {| spec_kind_of := SparseTensorSpec; spec_shape := x_shape; spec_dtype := x_dtype |}
    else
      Ok {| spec_kind_of := TensorSpec; spec_shape := x_shape; spec_dtype := x_dtype |}.

Definition _set_tf_output_signature (self : GeneratorDataAdapter)
    : result unit * GeneratorDataAdapter :=
  match map_structure get_tensor_spec (_first_batch self) with
  | Ok signature =>
      (Ok tt,
       {| generator := generator self;
          _first_batch := _first_batch self;
          _output_signature := Some signature |})
  | Err e => (Err e, self)
  end.

(** Modelled from the spec: [data_adapter_utils.get_numpy_iterator], which is
    not in this module.  A lazy, single-pass sequence over the batches of the
    iterable, with the array conversion applied to each batch, and no
    inference, prefetching or buffering. *)
Definition data_adapter_utils_get_numpy_iterator (iterable : loc) : batch_iterator :=
  {| it_source := iterable;
     it_func := fun batch => Ok (convert_to_numpy batch);
     it_closed := false |}.

(** Modelled from the spec: [data_adapter_utils.get_jax_iterator], which is
    not in this module; the same contract for JAX. *)
Definition data_adapter_utils_get_jax_iterator (iterable : loc) : batch_iterator :=
  {| it_source := iterable;
     it_func := fun batch => Ok (convert_to_jax batch);
     it_closed := false |}.

(** Modelled from the spec: [data_adapter_utils.get_torch_dataloader], which
    is not in this module; the same contract for torch. *)
Definition data_adapter_utils_get_torch_dataloader (iterable : loc) : batch_iterator :=
  {| it_source := iterable;
     it_func := fun batch => Ok (convert_to_torch batch);
     it_closed := false |}.

Definition get_numpy_iterator (self : GeneratorDataAdapter) : batch_iterator :=
  data_adapter_utils_get_numpy_iterator (generator self).

Definition get_jax_iterator (self : GeneratorDataAdapter) : batch_iterator :=
  data_adapter_utils_get_jax_iterator (generator self).

Definition convert_to_tf (batch : pyobj) : result pyobj :=
  if is_scipy_sparse batch then scipy_sparse_to_tf_sparse batch
  else Ok batch.

Definition get_tf_iterator (self : GeneratorDataAdapter) : batch_iterator :=
  {| it_source := generator self;
     it_func := fun batch => map_structure convert_to_tf batch;
     it_closed := false |}.

Definition get_tf_dataset (self : GeneratorDataAdapter)
    : result tf_dataset * GeneratorDataAdapter :=
  let '(r, self') :=
    match _output_signature self with
    | None => _set_tf_output_signature self
    | Some _ => (Ok tt, self)
    end in
  match r with
  | Err e => (Err e, self')
  | Ok _ =>
      let ds := from_generator (get_tf_iterator self') (_output_signature self') in
      let ds := prefetch ds AUTOTUNE in
      (Ok ds, self')
  end.

Definition get_torch_dataloader (self : GeneratorDataAdapter) : batch_iterator :=
  data_adapter_utils_get_torch_dataloader (generator self).

Definition num_batches (self : GeneratorDataAdapter) : option nat := None.

Definition batch_size (self : GeneratorDataAdapter) : option nat := None.

(** The methods and properties of the class, and the adapter that a call
    leaves: only [get_tf_dataset] assigns an attribute of [self]. *)
Inductive method :=
  | Get_numpy_iterator
  | Get_jax_iterator
  | Get_tf_dataset
  | Get_torch_dataloader
  | Num_batches
  | Batch_size.

Definition call (self : GeneratorDataAdapter) (m : method) : GeneratorDataAdapter :=
  match m with
  | Get_tf_dataset => snd (get_tf_dataset self)
  | _ => self
  end.

(** ** Statements of the specification *)

(** The batch shapes that the specification accepts: a tuple of one, two or
    three elements. *)
Definition is_tuple_of_1_to_3 (v : pyval) : bool :=
  match v with
  | Node CTuple l => bool_decide (1 <= length l <= 3)
  | _ => false
  end.

(** The descriptor that the specification gives to a field: ragged for a
    ragged tensor, sparse for a sparse tensor or an object of the scipy
    sparse convention, dense otherwise; the shape with its leading dimension
    unknown; the standardized dtype. *)
Definition claimed_kind (x : pyobj) : spec_kind :=
  match tf_type x with
  | TfRaggedTensor => RaggedTensorSpec
  | TfSparseTensor => SparseTensorSpec
  | OtherClass => if is_scipy_sparse x then SparseTensorSpec else TensorSpec
  end.

(** Whether [standardize_dtype] accepts a dtype, and the name that it
    returns for it (the dtype itself when it is refused). *)
Definition dtype_accepted (dt : string) : bool :=
  match standardize_dtype dt with
  | Ok _ => true
  | Err _ => false
  end.

Definition standardized (dt : string) : string :=
  match standardize_dtype dt with
  | Ok name => name
  | Err _ => dt
  end.

Definition claimed_spec (x : pyobj) : type_spec :=
  {| spec_kind_of := claimed_kind x;
     spec_shape := None :: tail (shape x);
     spec_dtype := standardized (dtype x) |}.

(** A field from which a descriptor can be inferred: its rank is at least 1
    and its dtype is accepted. *)
Definition valid_field (x : pyobj) : Prop :=
  1 <= length (shape x) /\ dtype_accepted (dtype x) = true.

(** The message of the rank check for the field [x]. *)
Definition rank_error (x : pyobj) (rank : nat) : exn :=
  ValueError
    [Text "When passing a Python generator to a Keras model, the arrays returned by the generator must be at least rank 1. Received: ";
     Repr (Leaf x); Text " of rank "; Num rank].

(** The nonzero entries of a COO matrix, and those of a sparse tensor, as
    (row, column, value) triples. *)
Definition coo_entries (m : coo_matrix) : list (Z * Z * Z) :=
  zip (zip (coo_row m) (coo_col m)) (coo_data m).

Definition sparse_entries (x : pyobj) : list (Z * Z * Z) :=
  match payload x with
  | Sparse indices values _ =>
      zip (omap (fun ix => match ix with [r; c] => Some (r, c) | _ => None end) indices)
          values
  | _ => []
  end.

(** Whether a text occurs in a message. *)
Fixpoint occurs_in (needle hay : string) : bool :=
  String.prefix needle hay ||
  match hay with
  | EmptyString => false
  | String _ hay' => occurs_in needle hay'
  end.

(** ** Concrete data *)

(** A numpy array. *)
Definition ndarray (shp : list nat) (dt : string) (values : list Z) : pyobj :=
  {| class_module := "numpy";
     tf_type := OtherClass;
     shape := map Some shp;
     dtype := dt;
     tocoo := None;
     payload := Dense values |}.

(** A scipy CSR matrix with the given coordinate form. *)
Definition csr_matrix (m : coo_matrix) : pyobj :=
  {| class_module := "scipy.sparse._csr";
     tf_type := OtherClass;
     shape := map Some (coo_shape m);
     dtype := coo_dtype m;
     tocoo := Some m;
     payload := Opaque |}.

(** A generator that yields the elements of a list, and the store that
    holds it, not yet started, at location 0. *)
Definition yields (l : list pyval) : nat -> option pyval := fun i => l !! i.

Definition store_with (l : list pyval) : store :=
  {| gens := {[ 0 := {| g_body := yields l; g_pos := 0 |} ]}; chains := ∅ |}.

(** The two batches [([[1, 2]], [0])] and [([[3, 4]], [1])]. *)
Definition batch_1 : pyval :=
  Node CTuple [Leaf (ndarray [1; 2] "int64" [1; 2]%Z); Leaf (ndarray [1] "int64" [0]%Z)].

Definition batch_2 : pyval :=
  Node CTuple [Leaf (ndarray [1; 2] "int64" [3; 4]%Z); Leaf (ndarray [1] "int64" [1]%Z)].

(** A batch of four elements, a bare array, and a batch with a scalar. *)
Definition batch_of_4 : pyval :=
  Node CTuple [Leaf (ndarray [1] "int64" [0]%Z); Leaf (ndarray [1] "int64" [1]%Z);
               Leaf (ndarray [1] "int64" [2]%Z); Leaf (ndarray [1] "int64" [3]%Z)].

Definition bare_array : pyval := Leaf (ndarray [1; 2] "int64" [1; 2]%Z).

Definition batch_with_scalar : pyval :=
  Node CTuple [Leaf (ndarray [1; 2] "int64" [1; 2]%Z); Leaf (ndarray [] "float32" [7]%Z)].

(** The 2 x 3 matrix with 5 at (0, 2) and 6 at (1, 0). *)
Definition coo_2x3 : coo_matrix :=
  {| coo_row := [0; 1]%Z; coo_col := [2; 0]%Z; coo_data := [5; 6]%Z;
     coo_shape := [2; 3]; coo_dtype := "float64" |}.

(** The store that construction leaves when the generator [g], in state
    [o], yields [v]: the generator has made one step and a new chain object
    holds [v] in front of it. *)
Definition after_peek (g : loc) (o : generator_obj) (v : pyval) (s : store) : store :=
  {| gens := <[g := advance o]> (gens s);
     chains := <[fresh (dom (chains s)) := [FromList [v]; FromIter g]]> (chains s) |}.

(** The message of the tuple check for the value [v]. *)
Definition tuple_error (v : pyval) : exn :=
  ValueError
    [Text "When passing a Python generator to a Keras model, the generator must return a tuple, either (input,) or (inputs, targets) or (inputs, targets, sample_weights). Received: ";
     Repr v].

(** ** Induction on nested structures *)

Fixpoint tree_induction {A} (P : tree A -> Prop)
    (HLeaf : forall a, P (Leaf a))
    (HNode : forall c l, Forall P l -> P (Node c l))
    (t : tree A) : P t :=
  match t with
  | Leaf a => HLeaf a
  | Node c l =>
      HNode c l
        ((fix go (l : list (tree A)) : Forall P l :=
            match l with
            | [] => List.Forall_nil P
            | x :: l' => List.Forall_cons P x l' (tree_induction P HLeaf HNode x) (go l')
            end) l)
  end.

(** ** Further notions used in the statements *)

(** The nesting of a structure, without its leaves. *)
Definition skeleton {A} (t : tree A) : tree unit := tree_map (fun _ => tt) t.

(** The chain [c] built over the generator [g]: [l] is what is left of its
    list, the generator has made [q] steps; once both are used up the chain
    has no iterable left. *)
Definition chain_over (c g : loc) (body : nat -> option pyval)
    (l : list pyval) (q : nat) (s : store) : Prop :=
  gens s !! g = Some {| g_body := body; g_pos := q |} /\
  (chains s !! c = Some [FromList l; FromIter g] \/
   (l = [] /\ chains s !! c = Some [FromIter g]) \/
   (l = [] /\ body q = None /\ chains s !! c = Some [])).

(** What such a chain still has to deliver, cut after [n] elements. *)
Definition chain_items (l : list pyval) (body : nat -> option pyval) (q n : nat)
    : list pyval :=
  take n l ++ gen_items body q (n - length l).

(** A coordinate form that the conversion accepts: as many row indices as
    column indices and as values, and a shape of two dimensions. *)
Definition coo_well_formed (m : coo_matrix) : bool :=
  bool_decide (length (coo_row m) = length (coo_col m)) &&
  bool_decide (length (coo_row m) = length (coo_data m)) &&
  bool_decide (length (coo_shape m) = 2).

(** A field that [convert_to_tf] can convert: not of the scipy sparse
    convention, or with a coordinate form that the conversion accepts. *)
Definition convertible (x : pyobj) : bool :=
  negb (is_scipy_sparse x) ||
  match tocoo x with
  | Some m => coo_well_formed m
  | None => true
  end.

(** The sparse tensor of a coordinate form: one index pair (row, column)
    for each stored entry, the values and the shape. *)
Definition sparse_tensor_of (m : coo_matrix) : pyobj :=
  {| class_module := "tensorflow.python.framework.sparse_tensor";
     tf_type := TfSparseTensor;
     shape := Some <$> coo_shape m;
     dtype := coo_dtype m;
     tocoo := None;
     payload := Sparse (zip_with (fun r c => [r; c]) (coo_row m) (coo_col m))
                       (coo_data m) (coo_shape m) |}.

(** What a field is expected to become in the batches of the dataset: the
    sparse tensor of its coordinate form for a field of the scipy sparse
    convention, the field itself otherwise. *)
Definition converted_field (x : pyobj) : pyobj :=
  if is_scipy_sparse x then
    match tocoo x with
    | Some m => sparse_tensor_of m
    | None => x
    end
  else x.

(** A field of the scipy sparse convention that agrees with its coordinate
    form, as the matrices of scipy do: it is no TensorFlow tensor, it has
    the shape and the dtype of the coordinate form, and the coordinate form
    is one that the conversion accepts.  Other fields qualify as they are. *)
Definition agrees_with_coo (x : pyobj) : bool :=
  negb (is_scipy_sparse x) ||
  match tocoo x with
  | Some m =>
      bool_decide (tf_type x = OtherClass) &&
      bool_decide (shape x = Some <$> coo_shape m) &&
      bool_decide (dtype x = coo_dtype m) &&
      coo_well_formed m
  | None => false
  end.

(** The dtypes that keras accepts, and an instance of [standardize_dtype]
    for the dtype names of numpy: an accepted name is returned as it is, any
    other raises [ValueError]. *)
Definition ALLOWED_DTYPES : list string :=
  ["float16"; "float32"; "float64"; "uint8"; "uint16"; "uint32"; "uint64";
   "int8"; "int16"; "int32"; "int64"; "bfloat16"; "bool"; "string"].

Definition keras_standardize_dtype (dt : string) : result string :=
  if bool_decide (dt ∈ ALLOWED_DTYPES) then Ok dt
  else Err (ValueError [Text "Invalid dtype: "; Text dt]).

(** A first batch whose first field has a dtype that keras refuses and
    whose second field is a scalar. *)
Definition batch_complex_then_scalar : pyval :=
  Node CTuple [Leaf {| class_module := "numpy"; tf_type := OtherClass;
                       shape := [Some 3]; dtype := "complex128";
                       tocoo := None; payload := Dense [1; 2; 3]%Z |};
               Leaf {| class_module := "numpy"; tf_type := OtherClass;
                       shape := []; dtype := "float32";
                       tocoo := None; payload := Dense [7]%Z |}].

(** A one-dimensional scipy [coo_array] of length 4 with 5 at index 1 and 6
    at index 3: its row indices are zeros. *)
Definition coo_1d : coo_matrix :=
  {| coo_row := [0; 0]%Z; coo_col := [1; 3]%Z; coo_data := [5; 6]%Z;
     coo_shape := [4]; coo_dtype := "float64" |}.

Definition coo_array (m : coo_matrix) : pyobj :=
  {| class_module := "scipy.sparse._coo";
     tf_type := OtherClass;
     shape := Some <$> coo_shape m;
     dtype := coo_dtype m;
     tocoo := Some m;
     payload := Opaque |}.

(** A scipy matrix whose coordinate form has a row index too many. *)
Definition coo_broken : coo_matrix :=
  {| coo_row := [0; 1; 1]%Z; coo_col := [2; 0]%Z; coo_data := [5; 6]%Z;
     coo_shape := [2; 3]; coo_dtype := "float64" |}.

Definition batch_sparse : pyval :=
  Node CTuple [Leaf (csr_matrix coo_2x3); Leaf (ndarray [2] "int64" [0; 1]%Z)].

Definition batch_broken : pyval :=
  Node CTuple [Leaf (csr_matrix coo_broken); Leaf (ndarray [2] "int64" [0; 1]%Z)].

(** The batch [([[1, 2], [3, 4], [5, 6]], [0, 1, 0])], of three samples. *)
Definition batch_of_3_samples : pyval :=
  Node CTuple [Leaf (ndarray [3; 2] "int64" [1; 2; 3; 4; 5; 6]%Z);
               Leaf (ndarray [3] "int64" [0; 1; 0]%Z)].

Definition batch_two_scalars : pyval :=
  Node CTuple [Leaf (ndarray [1; 2] "int64" [1; 2]%Z);
               Node CList [Leaf (ndarray [] "float32" [7]%Z)];
               Leaf (ndarray [] "int64" [8]%Z)].

(** ** The traversal *)

Lemma map_structure_node {A B} (f : A -> result B) c l :
  map_structure f (Node c l) = let* l' := map_structures f l in Ok (Node c l').
Proof.
  simpl. f_equal.
  induction l as [|x l IH]; simpl; [done|]. by rewrite IH.
Qed.

Lemma flatten_node {A} c (l : list (tree A)) :
  flatten (Node c l) = concat (flatten <$> l).
Proof.
  simpl. induction l as [|x l IH]; simpl; [done|]. by rewrite IH.
Qed.

Lemma tree_map_id {A} (t : tree A) : tree_map id t = t.
Proof.
  induction t as [a|c l IH] using tree_induction; simpl; [done|].
  f_equal. induction IH as [|x l Hx _ IHl]; simpl; [done|]. by rewrite Hx, IHl.
Qed.

Lemma flatten_tree_map {A B} (f : A -> B) (t : tree A) :
  flatten (tree_map f t) = f <$> flatten t.
Proof.
  induction t as [a|c l IH] using tree_induction; [done|].
  change (tree_map f (Node c l)) with (Node c (map (tree_map f) l)).
  rewrite !flatten_node.
  induction l as [|x l IHl]; csimpl; [done|].
  apply Forall_cons in IH as [Hx IH].
  by rewrite fmap_app, Hx, (IHl IH).
Qed.

(** When [func] succeeds on every leaf, the traversal succeeds and applies
    it to every leaf. *)
Lemma map_structure_total {A B} (f : A -> result B) (g : A -> B) (t : tree A) :
  Forall (fun a => f a = Ok (g a)) (flatten t) ->
  map_structure f t = Ok (tree_map g t).
Proof.
  induction t as [a|c l IH] using tree_induction.
  - simpl. rewrite Forall_singleton. by intros ->.
  - rewrite map_structure_node, flatten_node. intros Hall.
    assert (map_structures f l = Ok (map (tree_map g) l)) as ->; [|done].
    induction IH as [|x l Hx _ IHl]; simpl in *; [done|].
    apply Forall_app in Hall as [H1 H2].
    by rewrite (Hx H1), (IHl H2).
Qed.

(** A traversal that succeeds has succeeded on every leaf, in order. *)
Lemma map_structure_ok_inv {A B} (f : A -> result B) (t : tree A) :
  forall t', map_structure f t = Ok t' ->
  Forall2 (fun a b => f a = Ok b) (flatten t) (flatten t').
Proof.
  induction t as [a|c l IH] using tree_induction; intros t'.
  - simpl. destruct (f a) as [b|e] eqn:Ha; simpl; [|done].
    intros [= <-]. simpl. by repeat constructor.
  - rewrite map_structure_node.
    destruct (map_structures f l) as [l'|e] eqn:Hl; simpl; [|done].
    intros [= <-]. rewrite !flatten_node.
    revert l' Hl.
    induction IH as [|x l Hx _ IHl]; intros l'; simpl.
    + intros [= <-]. constructor.
    + destruct (map_structure f x) as [y|e] eqn:Hy; simpl; [|done].
      destruct (map_structures f l) as [ys|e] eqn:Hys; simpl; [|done].
      intros [= <-]. simpl. apply Forall2_app; auto.
Qed.

(** A traversal that fails has failed with the exception of one of the
    leaves. *)
Lemma map_structure_err_inv {A B} (f : A -> result B) (t : tree A) :
  forall e, map_structure f t = Err e ->
  exists a, a ∈ flatten t /\ f a = Err e.
Proof.
  induction t as [a|c l IH] using tree_induction; intros e.
  - simpl. destruct (f a) as [b|e'] eqn:Ha; simpl; [done|].
    intros [= <-]. exists a. split; [apply list_elem_of_singleton; done|done].
  - rewrite map_structure_node, flatten_node.
    destruct (map_structures f l) as [l'|e'] eqn:Hl; simpl; [done|].
    intros [= <-].
    induction IH as [|x l Hx _ IHl]; simpl in *; [done|].
    destruct (map_structure f x) as [y|e] eqn:Hy; simpl in Hl.
    + destruct (map_structures f l) as [ys|e] eqn:Hys; simpl in Hl; [done|].
      injection Hl as ->. destruct (IHl eq_refl) as (a & Ha & Hfa).
      exists a. split; [apply elem_of_app; by right|done].
    + injection Hl as ->. destruct (Hx _ eq_refl) as (a & Ha & Hfa).
      exists a. split; [apply elem_of_app; by left|done].
Qed.

(** A leaf on which [func] fails makes the traversal fail, with the
    exception of a leaf. *)
Lemma map_structure_fails {A B} (f : A -> result B) (t : tree A) a e :
  a ∈ flatten t -> f a = Err e ->
  exists a' e', a' ∈ flatten t /\ f a' = Err e' /\ map_structure f t = Err e'.
Proof.
  intros Ha Hfa.
  destruct (map_structure f t) as [t'|e'] eqn:Ht.
  - apply map_structure_ok_inv in Ht.
    apply list_elem_of_lookup in Ha as [i Hi].
    destruct (Forall2_lookup_l _ _ _ _ _ Ht Hi) as (b & _ & Hb). congruence.
  - destruct (map_structure_err_inv _ _ _ Ht) as (a' & Ha' & Hfa'). eauto.
Qed.

(** ** More on the traversal *)

Lemma map_structure_skeleton {A B} (f : A -> result B) (t : tree A) :
  forall t', map_structure f t = Ok t' -> skeleton t' = skeleton t.
Proof.
  induction t as [a|c l IH] using tree_induction; intros t'.
  - simpl. destruct (f a) as [b|e]; simpl; [|done]. by intros [= <-].
  - rewrite map_structure_node.
    destruct (map_structures f l) as [l'|e] eqn:Hl; simpl; [|done].
    intros [= <-]. unfold skeleton. simpl. f_equal.
    revert l' Hl. induction IH as [|x l Hx _ IHl]; intros l'; simpl.
    + by intros [= <-].
    + destruct (map_structure f x) as [y|e] eqn:Hy; simpl; [|done].
      destruct (map_structures f l) as [ys|e] eqn:Hys; simpl; [|done].
      intros [= <-]. simpl. f_equal; [by apply Hx|by apply IHl].
Qed.

(** A traversal that fails has succeeded on the leaves before the one whose
    exception it raises. *)
Lemma map_structure_err_split {A B} (f : A -> result B) (t : tree A) :
  forall e, map_structure f t = Err e ->
  exists l1 a l2,
    flatten t = l1 ++ a :: l2 /\
    Forall (fun b => exists c, f b = Ok c) l1 /\ f a = Err e.
Proof.
  induction t as [a|c l IH] using tree_induction; intros e.
  - simpl. destruct (f a) as [b|e'] eqn:Ha; simpl; [done|].
    intros [= <-]. by exists [], a, [].
  - rewrite map_structure_node, flatten_node.
    destruct (map_structures f l) as [l'|e'] eqn:Hl; simpl; [done|].
    intros [= <-].
    induction IH as [|x l Hx _ IHl]; csimpl in *; [done|].
    destruct (map_structure f x) as [y|e] eqn:Hy; simpl in Hl.
    + destruct (map_structures f l) as [ys|e] eqn:Hys; simpl in Hl; [done|].
      injection Hl as ->.
      destruct (IHl eq_refl) as (l1 & a & l2 & Hfl & Hok & Ha).
      exists (flatten x ++ l1), a, l2. rewrite Hfl.
      split; [by rewrite app_assoc|]. split; [|done].
      apply Forall_app. split; [|done].
      apply map_structure_ok_inv in Hy.
      apply Forall_forall. intros b Hb.
      apply list_elem_of_lookup in Hb as [i Hi].
      destruct (Forall2_lookup_l _ _ _ _ _ Hy Hi) as (b' & _ & Hb'). eauto.
    + injection Hl as ->.
      destruct (Hx _ eq_refl) as (l1 & a & l2 & Hfl & Hok & Ha).
      exists l1, a, (l2 ++ concat (flatten <$> l)). rewrite Hfl.
      split; [by rewrite <- app_assoc|done].
Qed.

Lemma first_failure_unique {A B} (f : A -> result B) l1 a l2 l1' a' l2' e e' :
  l1 ++ a :: l2 = l1' ++ a' :: l2' ->
  Forall (fun b => exists c, f b = Ok c) l1 -> f a = Err e ->
  Forall (fun b => exists c, f b = Ok c) l1' -> f a' = Err e' ->
  a = a'.
Proof.
  revert l1'. induction l1 as [|b l1 IH]; intros [|b' l1']; simpl.
  - by intros [= -> _].
  - intros [= <- _] _ Ha Hok _. apply Forall_cons in Hok as [[c Hc] _]. congruence.
  - intros [= -> _] Hok _ _ Ha'. apply Forall_cons in Hok as [[c Hc] _]. congruence.
  - intros [= <- Heq] Hok Ha Hok' Ha'.
    apply Forall_cons in Hok as [_ Hok]. apply Forall_cons in Hok' as [_ Hok'].
    by apply (IH l1').
Qed.

(** Two traversals in a row. *)
Lemma map_structure_compose {A B C} (f : A -> result B) (g : B -> result C)
    (h : A -> result C) (t : tree A) :
  Forall (fun a => exists b, f a = Ok b /\ g b = h a) (flatten t) ->
  exists t', map_structure f t = Ok t' /\ map_structure g t' = map_structure h t.
Proof.
  induction t as [a|c l IH] using tree_induction.
  - simpl. rewrite Forall_singleton. intros (b & -> & Hg). simpl.
    exists (Leaf b). simpl. by rewrite Hg.
  - rewrite flatten_node. intros Hall.
    assert (exists l', map_structures f l = Ok l' /\
              map_structures g l' = map_structures h l) as (l' & Hl' & Hg).
    { induction IH as [|x l Hx _ IHl]; simpl in *; [by exists []|].
      apply Forall_app in Hall as [H1 H2].
      destruct (Hx H1) as (y & -> & Hy). destruct (IHl H2) as (ys & -> & Hys).
      exists (y :: ys). simpl. by rewrite Hy, Hys. }
    exists (Node c l'). rewrite !map_structure_node, Hl', Hg. done.
Qed.

(** ** Generators, chains and construction *)

Lemma gen_next_yield g s o v :
  gens s !! g = Some o -> g_body o (g_pos o) = Some v ->
  gen_next g s = (Ok v, set_gens <[g := advance o]> s).
Proof. intros Hg Hv. unfold gen_next. by rewrite Hg, Hv. Qed.

Lemma gen_next_stop g s o :
  gens s !! g = Some o -> g_body o (g_pos o) = None ->
  gen_next g s = (Err StopIteration, s).
Proof. intros Hg Hv. unfold gen_next. by rewrite Hg, Hv. Qed.

Lemma init_yield g s o v :
  gens s !! g = Some o -> g_body o (g_pos o) = Some v ->
  __init__ g s =
    (if is_tuple v then
       Ok {| generator := fresh (dom (chains s));
             _first_batch := v;
             _output_signature := None |}
     else Err (tuple_error v),
     after_peek g o v s).
Proof.
  intros Hg Hv. unfold __init__, peek_and_restore.
  rewrite (gen_next_yield _ _ _ _ Hg Hv). simpl.
  by destruct (is_tuple v).
Qed.

Lemma init_stop g s o :
  gens s !! g = Some o -> g_body o (g_pos o) = None ->
  __init__ g s = (Err StopIteration, s).
Proof.
  intros Hg Hv. unfold __init__, peek_and_restore.
  by rewrite (gen_next_stop _ _ _ Hg Hv).
Qed.

Lemma init_ok_inv g s self s1 :
  __init__ g s = (Ok self, s1) ->
  exists o v,
    gens s !! g = Some o /\ g_body o (g_pos o) = Some v /\ is_tuple v = true /\
    self = {| generator := fresh (dom (chains s));
              _first_batch := v;
              _output_signature := None |} /\
    s1 = after_peek g o v s.
Proof.
  destruct (gens s !! g) as [o|] eqn:Hg.
  - destruct (g_body o (g_pos o)) as [v|] eqn:Hv.
    + rewrite (init_yield g s o v Hg Hv).
      destruct (is_tuple v) eqn:Ht; [|done].
      intros [= <- <-]. by exists o, v.
    + by rewrite (init_stop g s o Hg Hv).
  - unfold __init__, peek_and_restore, gen_next. by rewrite Hg.
Qed.

Lemma fmap_fixed {A} (f : A -> A) (l : list A) :
  (forall b, b ∈ l -> f b = b) -> f <$> l = l.
Proof.
  induction l as [|b l IH]; intros Hid; [done|]. csimpl.
  rewrite Hid by apply list_elem_of_here. f_equal. apply IH.
  intros b' Hb'. apply Hid. by apply list_elem_of_further.
Qed.

(** For a generator of the elements of a list, the sequence is the list. *)
Lemma gen_items_yields l n : gen_items (yields l) 0 n = take n l.
Proof.
  assert (forall k, gen_items (yields l) k n = take n (drop k l)) as H.
  { induction n as [|n IH]; intros k; simpl; [done|].
    unfold yields at 1. destruct (l !! k) as [v|] eqn:Hk.
    - rewrite IH. by rewrite (drop_S _ _ _ Hk).
    - apply lookup_ge_None in Hk. by rewrite drop_ge. }
  by rewrite H, drop_0.
Qed.

(** Iterating over a chain whose list part is used up: the batches are those
    of the generator behind it, which advances by one step for each. *)
Lemma pull_behind c g body f n :
  forall it s pos,
    it_source it = c -> it_closed it = false ->
    (forall b, it_func it b = Ok (f b)) ->
    gens s !! g = Some {| g_body := body; g_pos := pos |} ->
    (chains s !! c = Some [FromIter g] \/
     chains s !! c = Some [FromList []; FromIter g]) ->
    exists it' s',
      pull n it s = (f <$> gen_items body pos n, it', s') /\
      gens s' =
        <[g := {| g_body := body; g_pos := pos + length (gen_items body pos n) |}]> (gens s).
Proof.
  induction n as [|n IH]; intros it s pos Hc Hopen Hf Hg Hch.
  - exists it, s. split; [done|]. simpl. rewrite Nat.add_0_r.
    symmetry. by apply insert_id.
  - simpl. unfold iter_next. rewrite Hopen, Hc. unfold chain_next.
    assert (exists srcs, chains s !! c = Some srcs /\
              chain_step srcs s = chain_step [FromIter g] s) as (srcs & -> & ->).
    { destruct Hch as [->| ->]; eauto. }
    simpl. destruct (body pos) as [v|] eqn:Hv.
    + rewrite (gen_next_yield g s _ v Hg Hv). rewrite Hf.
      edestruct (IH it (set_chains <[c:=[FromIter g]]> (set_gens <[g:=advance {| g_body := body; g_pos := pos |}]> s)) (S pos))
        as (it' & s' & Hpull & Hgens); try done.
      { simpl. by rewrite lookup_insert_eq. }
      { left. simpl. by rewrite lookup_insert_eq. }
      rewrite Hpull. exists it', s'. split; [done|].
      rewrite Hgens. simpl. rewrite insert_insert_eq. do 2 f_equal. lia.
    + rewrite (gen_next_stop g s _ Hg Hv). simpl.
      eexists _, _. split; [done|]. simpl. rewrite Nat.add_0_r.
      symmetry. by apply insert_id.
Qed.

(** Iterating over the chain that construction has just built: the peeked
    batch comes first, then those that the generator still has. *)
Lemma pull_after_peek g s o v f n it :
  gens s !! g = Some o -> g_body o (g_pos o) = Some v ->
  it_source it = fresh (dom (chains s)) -> it_closed it = false ->
  (forall b, it_func it b = Ok (f b)) ->
  exists it' s',
    pull n it (after_peek g o v s) = (f <$> gen_items (g_body o) (g_pos o) n, it', s') /\
    gens s' !! g =
      Some {| g_body := g_body o;
              g_pos := g_pos o + max 1 (length (gen_items (g_body o) (g_pos o) n)) |}.
Proof.
  intros Hg Hv Hc Hopen Hf. destruct n as [|n].
  - eexists _, _. split; [done|]. simpl. rewrite lookup_insert_eq.
    unfold advance. do 2 f_equal. lia.
  - simpl. rewrite Hv. unfold iter_next. rewrite Hopen, Hc. unfold chain_next.
    simpl. rewrite lookup_insert_eq. simpl. rewrite Hf.
    edestruct (pull_behind (fresh (dom (chains s))) g (g_body o) f n it
        (set_chains <[fresh (dom (chains s)) := [FromList []; FromIter g]]> (after_peek g o v s))
        (S (g_pos o))) as (it' & s' & Hpull & Hgens); try done.
    { simpl. by rewrite lookup_insert_eq. }
    { right. simpl. by rewrite lookup_insert_eq. }
    rewrite Hpull. exists it', s'. split; [done|].
    rewrite Hgens. rewrite lookup_insert_eq. simpl. do 2 f_equal. lia.
Qed.

(** ** Construction and plain iteration *)

(** C1. When the first element that the generator yields is a tuple,
    construction succeeds, and the first [n] calls of [next] on the adapter's
    numpy iterator deliver, for every [n], the first [n] elements that the
    generator had to yield when the adapter was built, in their order, each
    converted once (so exactly these elements when the conversion leaves them
    as they are); the generator behind has then made as many steps as
    elements were delivered, the peeked one included. *)
Theorem plain_iteration_restores_sequence g s o v :
  gens s !! g = Some o ->
  g_body o (g_pos o) = Some v ->
  is_tuple v = true ->
  exists self s1,
    __init__ g s = (Ok self, s1) /\
    _first_batch self = v /\
    forall n,
      let original := gen_items (g_body o) (g_pos o) n in
      exists it' s',
        pull n (get_numpy_iterator self) s1 = (convert_to_numpy <$> original, it', s') /\
        length (convert_to_numpy <$> original) = length original /\
        ((forall b, b ∈ original -> convert_to_numpy b = b) ->
         pull n (get_numpy_iterator self) s1 = (original, it', s')) /\
        gens s' !! g =
          Some {| g_body := g_body o; g_pos := g_pos o + max 1 (length original) |}.
Proof.
  intros Hg Hv Ht. rewrite (init_yield g s o v Hg Hv), Ht.
  eexists _, _. split; [done|]. split; [done|]. intros n original.
  subst original.
  destruct (pull_after_peek g s o v convert_to_numpy n
              (get_numpy_iterator {| generator := fresh (dom (chains s));
                                     _first_batch := v;
                                     _output_signature := None |}) Hg Hv)
    as (it' & s' & Hpull & Hgens); try done.
  exists it', s'. split; [done|]. split; [by rewrite length_fmap|].
  split; [|done]. intros Hid. by rewrite Hpull, (fmap_fixed _ _ Hid).
Qed.

(** C2, as the code has it.  Construction raises the validation error
    exactly when the peeked element is not a tuple, whatever the length of
    the tuple; the message names the three accepted shapes and ends with the
    value received; for a peeked tuple, construction returns an adapter. *)
Theorem construction_fails_iff_not_tuple g s o v :
  gens s !! g = Some o ->
  g_body o (g_pos o) = Some v ->
  ((exists msg, fst (__init__ g s) = Err (ValueError msg)) <-> is_tuple v = false) /\
  (is_tuple v = false ->
   exists text,
     fst (__init__ g s) = Err (ValueError [Text text; Repr v]) /\
     occurs_in "(input,)" text = true /\
     occurs_in "(inputs, targets)" text = true /\
     occurs_in "(inputs, targets, sample_weights)" text = true) /\
  (is_tuple v = true ->
   exists self, fst (__init__ g s) = Ok self /\ _first_batch self = v).
Proof.
  intros Hg Hv. rewrite (init_yield g s o v Hg Hv). simpl.
  destruct (is_tuple v); (split; [split|split]); try done.
  - by intros [msg ?].
  - intros _. by eexists.
  - intros _. by eexists.
  - intros _. eexists. split; [done|]. by vm_compute.
Qed.

(** C7. Whatever the first element is, construction makes the caller's
    generator take exactly one step and leaves every other generator as it
    was; when the element is not a tuple the result is the validation
    error, otherwise an adapter. *)
Theorem construction_pulls_exactly_one g s o v :
  gens s !! g = Some o ->
  g_body o (g_pos o) = Some v ->
  exists r s',
    __init__ g s = (r, s') /\
    gens s' = <[g := advance o]> (gens s) /\
    gens s' !! g = Some {| g_body := g_body o; g_pos := S (g_pos o) |} /\
    (is_tuple v = false -> r = Err (tuple_error v)) /\
    (is_tuple v = true -> exists self, r = Ok self).
Proof.
  intros Hg Hv. rewrite (init_yield g s o v Hg Hv).
  eexists _, _. split; [done|]. split; [done|]. split.
  { simpl. by rewrite lookup_insert_eq. }
  destruct (is_tuple v); split; try done. intros _. by eexists.
Qed.

(** C9. When the generator has nothing to yield, construction raises the
    [StopIteration] of [next], not the validation error, returns no adapter
    and leaves the store as it was. *)
Theorem construction_on_empty_generator g s o :
  gens s !! g = Some o ->
  g_body o (g_pos o) = None ->
  __init__ g s = (Err StopIteration, s) /\
  (forall v, fst (__init__ g s) <> Err (tuple_error v)) /\
  (forall self, fst (__init__ g s) <> Ok self).
Proof.
  intros Hg Hv. rewrite (init_stop g s o Hg Hv). by repeat split.
Qed.

(** C8. The properties [num_batches] and [batch_size] are [None] for every
    adapter, in whatever state a sequence of method calls has left it. *)
Theorem num_batches_and_batch_size_unknown (self : GeneratorDataAdapter) (ms : list method) :
  num_batches self = None /\ batch_size self = None /\
  num_batches (fold_left call ms self) = None /\
  batch_size (fold_left call ms self) = None.
Proof. done. Qed.

(** ** The output signature *)

Lemma standardized_accepted dt name :
  standardize_dtype dt = Ok name -> dtype_accepted dt = true /\ standardized dt = name.
Proof. unfold dtype_accepted, standardized. by intros ->. Qed.

Lemma accepted_standardized dt :
  dtype_accepted dt = true -> standardize_dtype dt = Ok (standardized dt).
Proof. unfold dtype_accepted, standardized. by destruct (standardize_dtype dt). Qed.

Lemma get_tensor_spec_ok x :
  valid_field x -> get_tensor_spec x = Ok (claimed_spec x).
Proof.
  intros [Hrank Hdtype].
  unfold get_tensor_spec, claimed_spec, claimed_kind, isinstance.
  destruct (decide (length (shape x) < 1)) as [?|_]; [lia|].
  assert (<[0:=None]> (shape x) = None :: tail (shape x)) as ->.
  { destruct (shape x); [simpl in Hrank; lia|done]. }
  rewrite (accepted_standardized _ Hdtype). simpl.
  destruct (tf_type x); simpl; [done..|].
  by destruct (is_scipy_sparse x).
Qed.

Lemma get_tensor_spec_rank_0 x :
  shape x = [] -> get_tensor_spec x = Err (rank_error x 0).
Proof. intros Hx. unfold get_tensor_spec, rank_error. by rewrite Hx. Qed.

Lemma get_tensor_spec_refused x e :
  1 <= length (shape x) -> standardize_dtype (dtype x) = Err e ->
  get_tensor_spec x = Err e.
Proof.
  intros Hrank Hdtype. unfold get_tensor_spec.
  destruct (decide (length (shape x) < 1)) as [?|_]; [lia|]. by rewrite Hdtype.
Qed.

Lemma get_tensor_spec_err_inv x e :
  get_tensor_spec x = Err e ->
  (shape x = [] /\ e = rank_error x 0) \/
  (1 <= length (shape x) /\ standardize_dtype (dtype x) = Err e).
Proof.
  destruct (shape x) as [|d l] eqn:Hx.
  - rewrite (get_tensor_spec_rank_0 x Hx). intros [= <-]. by left.
  - assert (1 <= length (shape x)) as Hrank by (rewrite Hx; simpl; lia).
    destruct (standardize_dtype (dtype x)) as [name|e'] eqn:Hdtype.
    + rewrite get_tensor_spec_ok; [done|].
      split; [done|]. by apply (standardized_accepted _ name).
    + rewrite (get_tensor_spec_refused x e' Hrank Hdtype). intros [= <-].
      right. split; [simpl; lia|done].
Qed.

Lemma get_tensor_spec_ok_inv x sp :
  get_tensor_spec x = Ok sp -> valid_field x /\ sp = claimed_spec x.
Proof.
  intros Hsp.
  assert (valid_field x) as Hvalid.
  { split.
    - destruct (shape x) as [|d l] eqn:Hx; [|simpl; lia].
      by rewrite (get_tensor_spec_rank_0 x Hx) in Hsp.
    - unfold dtype_accepted.
      destruct (standardize_dtype (dtype x)) as [name|e] eqn:Hdtype; [done|].
      destruct (shape x) as [|d l] eqn:Hx.
      + by rewrite (get_tensor_spec_rank_0 x Hx) in Hsp.
      + rewrite (get_tensor_spec_refused x e) in Hsp; [done| |done].
        rewrite Hx. simpl. lia. }
  split; [done|]. rewrite (get_tensor_spec_ok x Hvalid) in Hsp. congruence.
Qed.

Lemma signature_ok_inv (v : pyval) signature :
  map_structure get_tensor_spec v = Ok signature ->
  Forall valid_field (flatten v) /\
  signature = tree_map claimed_spec v.
Proof.
  intros Hmap.
  assert (Forall valid_field (flatten v)) as Hvalid.
  { apply Forall_forall. intros x Hx.
    apply list_elem_of_lookup in Hx as [i Hi].
    destruct (Forall2_lookup_l _ _ _ _ _ (map_structure_ok_inv _ _ _ Hmap) Hi)
      as (sp & _ & Hsp).
    by apply (get_tensor_spec_ok_inv x sp). }
  split; [done|].
  rewrite (map_structure_total get_tensor_spec claimed_spec) in Hmap; [congruence|].
  eapply Forall_impl; [exact Hvalid|]. apply get_tensor_spec_ok.
Qed.

(** A failed inference has stopped at the first field that is not valid. *)
Lemma signature_err_inv (v : pyval) e :
  map_structure get_tensor_spec v = Err e ->
  exists l1 x l2,
    flatten v = l1 ++ x :: l2 /\ Forall valid_field l1 /\
    get_tensor_spec x = Err e /\
    ((shape x = [] /\ e = rank_error x 0) \/
     (1 <= length (shape x) /\ standardize_dtype (dtype x) = Err e)).
Proof.
  intros Hmap.
  destruct (map_structure_err_split _ _ _ Hmap) as (l1 & x & l2 & Hfl & Hok & Hx).
  exists l1, x, l2. split; [done|]. split; [|split; [done|]].
  - eapply Forall_impl; [exact Hok|]. intros y [sp Hsp].
    by apply (get_tensor_spec_ok_inv y sp).
  - by apply get_tensor_spec_err_inv.
Qed.

(** The inference fails on a batch with a field that is not valid. *)
Lemma signature_fails (v : pyval) x :
  x ∈ flatten v -> ~ valid_field x ->
  exists e, map_structure get_tensor_spec v = Err e.
Proof.
  intros Hx Hinvalid.
  destruct (map_structure get_tensor_spec v) as [signature|e] eqn:Hmap; [|by eexists].
  destruct (signature_ok_inv _ _ Hmap) as [Hvalid _].
  destruct Hinvalid. by apply (proj1 (Forall_forall _ _) Hvalid).
Qed.

Lemma get_tf_dataset_cached self signature :
  _output_signature self = Some signature ->
  get_tf_dataset self =
    (Ok (prefetch (from_generator (get_tf_iterator self) (Some signature)) AUTOTUNE), self).
Proof. intros Hsig. unfold get_tf_dataset. by rewrite !Hsig. Qed.

Lemma get_tf_dataset_first self :
  _output_signature self = None ->
  get_tf_dataset self =
    match map_structure get_tensor_spec (_first_batch self) with
    | Ok signature =>
        let self' := {| generator := generator self;
                        _first_batch := _first_batch self;
                        _output_signature := Some signature |} in
        (Ok (prefetch (from_generator (get_tf_iterator self') (Some signature)) AUTOTUNE),
         self')
    | Err e => (Err e, self)
    end.
Proof.
  intros Hsig. unfold get_tf_dataset, _set_tf_output_signature. rewrite Hsig.
  by destruct (map_structure get_tensor_spec (_first_batch self)).
Qed.

(** What a successful call leaves. *)
Lemma get_tf_dataset_ok_inv self ds self' :
  get_tf_dataset self = (Ok ds, self') ->
  exists signature,
    _output_signature self' = Some signature /\
    generator self' = generator self /\
    _first_batch self' = _first_batch self /\
    ds = prefetch (from_generator (get_tf_iterator self') (Some signature)) AUTOTUNE /\
    (_output_signature self = None ->
     map_structure get_tensor_spec (_first_batch self) = Ok signature).
Proof.
  destruct (_output_signature self) as [signature|] eqn:Hsig.
  - rewrite (get_tf_dataset_cached _ _ Hsig). intros [= <- <-].
    exists signature. by repeat split.
  - rewrite (get_tf_dataset_first _ Hsig).
    destruct (map_structure get_tensor_spec (_first_batch self)) as [signature|e]; [|done].
    intros [= <- <-]. exists signature. by repeat split.
Qed.

(** What a failed call leaves. *)
Lemma get_tf_dataset_err_inv self e self' :
  get_tf_dataset self = (Err e, self') ->
  self' = self /\ _output_signature self = None /\
  map_structure get_tensor_spec (_first_batch self) = Err e.
Proof.
  destruct (_output_signature self) as [signature|] eqn:Hsig.
  - by rewrite (get_tf_dataset_cached _ _ Hsig).
  - rewrite (get_tf_dataset_first _ Hsig).
    destruct (map_structure get_tensor_spec (_first_batch self)) as [signature|e']; [done|].
    by intros [= <- <-].
Qed.

Lemma calls_after_success self signature ms :
  _output_signature self = Some signature -> fold_left call ms self = self.
Proof.
  intros Hsig. induction ms as [|m ms IH]; [done|]. simpl.
  assert (call self m = self) as ->; [|done].
  destruct m; try done. simpl. by rewrite (get_tf_dataset_cached _ _ Hsig).
Qed.

Lemma calls_after_failure self e ms :
  get_tf_dataset self = (Err e, self) -> fold_left call ms self = self.
Proof.
  intros Herr. induction ms as [|m ms IH]; [done|]. simpl.
  assert (call self m = self) as ->; [|done].
  destruct m; try done. simpl. by rewrite Herr.
Qed.

(** C3, as the code has it.  For a field [x] of rank at least 1 whose
    dtype [standardize_dtype] accepts, [get_tensor_spec] returns a descriptor
    whose shape is that of [x] with [None] in place of the leading dimension,
    whose dtype is the standardized dtype of [x], and whose kind is ragged
    for a ragged tensor, sparse for a sparse tensor or an object of the
    scipy sparse convention, dense otherwise; when [get_tf_dataset] computes
    the signature of a first batch that has [x] at some position, the
    signature has this descriptor at that position.  For a field of rank at
    least 1 whose dtype is refused, [get_tensor_spec] raises the exception
    of [standardize_dtype].  For the first batch [([[1, 2]], [0])], with
    [int64] accepted, the shapes are [(None, 2)] and [(None,)]. *)
Theorem signature_of_rank_1_field x name :
  1 <= length (shape x) ->
  standardize_dtype (dtype x) = Ok name ->
  exists sp,
    get_tensor_spec x = Ok sp /\
    spec_shape sp = None :: tail (shape x) /\
    length (spec_shape sp) = length (shape x) /\
    spec_dtype sp = name /\
    spec_kind_of sp = claimed_kind x /\
    (forall self ds self' i,
       _output_signature self = None ->
       get_tf_dataset self = (Ok ds, self') ->
       flatten (_first_batch self) !! i = Some x ->
       exists signature,
         ds_output_signature ds = Some signature /\
         _output_signature self' = Some signature /\
         flatten signature !! i = Some sp) /\
    (forall y e,
       1 <= length (shape y) -> standardize_dtype (dtype y) = Err e ->
       get_tensor_spec y = Err e) /\
    (forall int64,
       standardize_dtype "int64" = Ok int64 ->
       exists self s1 ds self',
         __init__ 0 (store_with [batch_1; batch_2]) = (Ok self, s1) /\
         get_tf_dataset self = (Ok ds, self') /\
         tree_map spec_shape <$> ds_output_signature ds =
           Some (Node CTuple [Leaf [None; Some 2]; Leaf [None]])).
Proof.
  intros Hrank Hname.
  destruct (standardized_accepted _ _ Hname) as [Haccepted Hstd].
  assert (valid_field x) as Hvalid by done.
  exists (claimed_spec x).
  split; [by apply get_tensor_spec_ok|]. split; [done|].
  split; [simpl; destruct (shape x); [simpl in Hrank; lia|done]|].
  split; [done|]. split; [done|]. split; [|split].
  - intros self ds self' i Hnone Hds Hi.
    destruct (get_tf_dataset_ok_inv _ _ _ Hds) as (signature & Hsig & _ & _ & -> & Hmap).
    exists signature. split; [done|]. split; [done|].
    apply map_structure_ok_inv in Hmap; [|done].
    destruct (Forall2_lookup_l _ _ _ _ _ Hmap Hi) as (sp & Hsp & Hx).
    rewrite get_tensor_spec_ok in Hx by done. congruence.
  - intros y e. apply get_tensor_spec_refused.
  - intros int64 Hint64.
    eexists _, _, _, _. split; [reflexivity|].
    rewrite get_tf_dataset_first by done.
    rewrite (map_structure_total get_tensor_spec claimed_spec).
    + split; [reflexivity|]. done.
    + eapply Forall_impl; [|apply get_tensor_spec_ok].
      destruct (standardized_accepted _ _ Hint64) as [Hacc _].
      simpl. repeat (apply List.Forall_cons || apply List.Forall_nil);
        (split; [simpl; lia|exact Hacc]).
Qed.

(** C4, as the code has it.  When the first batch is a tuple with a field
    of rank 0, construction succeeds; [get_tf_dataset] raises the exception
    of the first field that is not valid, which is the validation error of a
    rank-0 field, with the rank 0 in its message, or else the exception of
    [standardize_dtype] for a field that comes before every rank-0 field; it
    is the former when every dtype of the batch is accepted; the adapter is
    left as it was; the numpy iterator of the same adapter delivers the
    batches of the generator, the first one included. *)
Theorem scalar_field_fails_only_tf_dataset g s o v :
  gens s !! g = Some o ->
  g_body o (g_pos o) = Some v ->
  is_tuple v = true ->
  Exists (fun x => shape x = []) (flatten v) ->
  exists self s1,
    __init__ g s = (Ok self, s1) /\
    (exists e l1 x l2,
       get_tf_dataset self = (Err e, self) /\
       flatten v = l1 ++ x :: l2 /\ Forall valid_field l1 /\
       ((shape x = [] /\ e = rank_error x 0) \/
        (1 <= length (shape x) /\ standardize_dtype (dtype x) = Err e /\
         Exists (fun y => shape y = []) l2))) /\
    (Forall (fun x => dtype_accepted (dtype x) = true) (flatten v) ->
     exists x,
       x ∈ flatten v /\ shape x = [] /\
       get_tf_dataset self = (Err (rank_error x 0), self)) /\
    (exists it' s',
       iter_next (get_numpy_iterator self) s1 = (Ok (convert_to_numpy v), it', s')) /\
    (forall n, exists it' s',
       pull n (get_numpy_iterator self) s1 =
         (convert_to_numpy <$> gen_items (g_body o) (g_pos o) n, it', s')).
Proof.
  intros Hg Hv Ht Hex. rewrite (init_yield g s o v Hg Hv), Ht.
  eexists _, _. split; [done|].
  assert (exists e l1 x l2,
            map_structure get_tensor_spec v = Err e /\
            flatten v = l1 ++ x :: l2 /\ Forall valid_field l1 /\
            ((shape x = [] /\ e = rank_error x 0) \/
             (1 <= length (shape x) /\ standardize_dtype (dtype x) = Err e /\
              Exists (fun y => shape y = []) l2))) as (e & l1 & x & l2 & Hmap & Hfl & Hl1 & Hcase).
  { pose proof Hex as Hex'. apply Exists_exists in Hex' as (x0 & Hx0 & Hshape0).
    destruct (signature_fails v x0 Hx0) as [e Hmap].
    { intros [Hrank _]. rewrite Hshape0 in Hrank. simpl in Hrank. lia. }
    destruct (signature_err_inv _ _ Hmap) as (l1 & x & l2 & Hfl & Hl1 & _ & Hcase).
    exists e, l1, x, l2. split; [done|]. split; [done|]. split; [done|].
    destruct Hcase as [?|[Hrank Hdtype]]; [by left|]. right.
    split; [done|]. split; [done|].
    rewrite Hfl in Hex. apply Exists_app in Hex as [Hex|Hex].
    - apply Exists_exists in Hex as (y & Hy & Hshape).
      destruct (proj1 (Forall_forall _ _) Hl1 y Hy) as [Hranky _].
      rewrite Hshape in Hranky. simpl in Hranky. lia.
    - apply Exists_cons in Hex as [Hshape|Hex]; [|done].
      rewrite Hshape in Hrank. simpl in Hrank. lia. }
  split; [|split; [|split]].
  - exists e, l1, x, l2. split; [|done].
    rewrite get_tf_dataset_first by done. simpl. by rewrite Hmap.
  - intros Hall. destruct Hcase as [[Hshape ->]|(_ & Hdtype & _)].
    + exists x. split; [rewrite Hfl; apply elem_of_app; right; apply list_elem_of_here|].
      split; [done|]. rewrite get_tf_dataset_first by done. simpl. by rewrite Hmap.
    + assert (x ∈ flatten v) as Hx.
      { rewrite Hfl. apply elem_of_app. right. apply list_elem_of_here. }
      pose proof (proj1 (Forall_forall _ _) Hall x Hx) as Hacc.
      unfold dtype_accepted in Hacc. by rewrite Hdtype in Hacc.
  - unfold iter_next, chain_next. simpl. rewrite lookup_insert_eq. simpl.
    by eexists _, _.
  - intros n.
    destruct (pull_after_peek g s o v convert_to_numpy n
                (get_numpy_iterator {| generator := fresh (dom (chains s));
                                       _first_batch := v;
                                       _output_signature := None |}) Hg Hv)
      as (it' & s' & Hpull & _); try done.
    by exists it', s'.
Qed.

(** C5. After a successful [get_tf_dataset] the signature is stored in the
    adapter, and no sequence of method calls changes the adapter any more:
    every later [get_tf_dataset] returns a dataset with the stored signature
    and, the result being the same whatever the first batch holds, without
    looking at the fields again. *)
Theorem signature_computed_once self ds self' :
  get_tf_dataset self = (Ok ds, self') ->
  exists signature,
    ds_output_signature ds = Some signature /\
    _output_signature self' = Some signature /\
    (forall ms,
       fold_left call ms self' = self' /\
       get_tf_dataset (fold_left call ms self') = (Ok ds, self')) /\
    (forall first_batch,
       let other := {| generator := generator self';
                       _first_batch := first_batch;
                       _output_signature := _output_signature self' |} in
       get_tf_dataset other = (Ok ds, other)).
Proof.
  intros Hds.
  destruct (get_tf_dataset_ok_inv _ _ _ Hds) as (signature & Hsig & _ & _ & -> & _).
  exists signature. split; [done|]. split; [done|]. split.
  - intros ms. rewrite (calls_after_success _ _ ms Hsig).
    split; [done|]. by rewrite (get_tf_dataset_cached _ _ Hsig).
  - intros first_batch other.
    rewrite (get_tf_dataset_cached other signature); [done|]. by subst other.
Qed.

(** C10. When [get_tf_dataset] fails, the exception is that of the first
    field of the first batch that is not valid (the validation error of a
    rank-0 field, or the exception of [standardize_dtype]), the adapter is
    as it was before the call and its signature is still unset; after any
    sequence of method calls [get_tf_dataset] computes the signature again
    and raises the same exception. *)
Theorem failed_signature_is_not_cached self e self' :
  get_tf_dataset self = (Err e, self') ->
  self' = self /\
  _output_signature self' = None /\
  (exists x,
     x ∈ flatten (_first_batch self) /\ get_tensor_spec x = Err e /\
     ((shape x = [] /\ e = rank_error x 0) \/
      (1 <= length (shape x) /\ standardize_dtype (dtype x) = Err e))) /\
  (forall ms,
     fold_left call ms self' = self' /\
     _set_tf_output_signature (fold_left call ms self') = (Err e, self') /\
     get_tf_dataset (fold_left call ms self') = (Err e, self')).
Proof.
  intros Herr.
  destruct (get_tf_dataset_err_inv _ _ _ Herr) as (-> & Hnone & Hmap).
  split; [done|]. split; [done|]. split.
  - destruct (signature_err_inv _ _ Hmap) as (l1 & x & l2 & Hfl & _ & Hx & Hcase).
    exists x. split; [|done]. rewrite Hfl. apply elem_of_app. right.
    apply list_elem_of_here.
  - intros ms. rewrite (calls_after_failure _ _ ms Herr).
    split; [done|]. split; [|done].
    unfold _set_tf_output_signature. by rewrite Hmap.
Qed.

(** ** Conversion of the batches of the dataset *)

Lemma concatenate_expand_dims (row col : list Z) :
  length row = length col ->
  np_concatenate_axis1 (np_expand_dims_axis1 row) (np_expand_dims_axis1 col) =
    Ok {| ncols := 2; rows_of := zip_with (fun r c => [r; c]) row col |}.
Proof.
  intros Hlen. unfold np_concatenate_axis1, np_expand_dims_axis1. simpl.
  rewrite !length_map. destruct (decide (length row = length col)); [|done].
  do 2 f_equal. clear. revert col.
  induction row as [|r row IH]; intros [|c col]; simpl; [done..|]. by rewrite IH.
Qed.

Lemma concatenate_expand_dims_refused (row col : list Z) :
  length row <> length col ->
  exists msg,
    np_concatenate_axis1 (np_expand_dims_axis1 row) (np_expand_dims_axis1 col) =
      Err (ValueError msg).
Proof.
  intros Hlen. unfold np_concatenate_axis1, np_expand_dims_axis1. simpl.
  rewrite !length_map. destruct (decide (length row = length col)); [done|].
  by eexists.
Qed.

Lemma index_pairs (row col : list Z) :
  omap (fun ix : list Z => match ix with [r; c] => Some (r, c) | _ => None end)
       (zip_with (fun r c => [r; c]) row col) = zip row col.
Proof.
  revert col. induction row as [|r row IH]; intros [|c col]; simpl; [done..|].
  by rewrite IH.
Qed.

Lemma coo_well_formed_true m :
  coo_well_formed m = true <->
  length (coo_row m) = length (coo_col m) /\
  length (coo_row m) = length (coo_data m) /\
  length (coo_shape m) = 2.
Proof.
  unfold coo_well_formed. rewrite !andb_true_iff, !bool_decide_eq_true. tauto.
Qed.

Lemma convert_to_tf_other x : is_scipy_sparse x = false -> convert_to_tf x = Ok x.
Proof. intros Hx. unfold convert_to_tf. by rewrite Hx. Qed.

(** A field with a coordinate form that the conversion accepts becomes the
    sparse tensor of the coordinate form. *)
Lemma convert_to_tf_well_formed x m :
  is_scipy_sparse x = true -> tocoo x = Some m -> coo_well_formed m = true ->
  convert_to_tf x = Ok (sparse_tensor_of m).
Proof.
  intros Hx Hm (Hcol & Hdata & Hshape)%coo_well_formed_true.
  unfold convert_to_tf, scipy_sparse_to_tf_sparse. rewrite Hx, Hm.
  rewrite (concatenate_expand_dims _ _ Hcol). simpl. unfold tf_SparseTensor. simpl.
  rewrite length_zip_with_l_eq by done.
  destruct (decide (length (coo_row m) = length (coo_data m))); [|done].
  destruct (decide (2 = length (coo_shape m))); [done|]. by destruct n.
Qed.

(** The conversion raises a [ValueError], of numpy or of TensorFlow, for any
    other coordinate form. *)
Lemma convert_to_tf_refused x m :
  is_scipy_sparse x = true -> tocoo x = Some m -> coo_well_formed m = false ->
  exists msg, convert_to_tf x = Err (ValueError msg).
Proof.
  intros Hx Hm Hwf.
  unfold convert_to_tf, scipy_sparse_to_tf_sparse. rewrite Hx, Hm.
  destruct (decide (length (coo_row m) = length (coo_col m))) as [Hcol|Hcol].
  - rewrite (concatenate_expand_dims _ _ Hcol). simpl. unfold tf_SparseTensor. simpl.
    rewrite length_zip_with_l_eq by done.
    destruct (decide (length (coo_row m) = length (coo_data m))) as [Hdata|_];
      [|by eexists].
    destruct (decide (2 = length (coo_shape m))) as [Hshape|_]; [|by eexists].
    assert (coo_well_formed m = true) as Hwf'; [|congruence].
    by apply coo_well_formed_true.
  - destruct (concatenate_expand_dims_refused _ _ Hcol) as [msg ->]. by eexists.
Qed.

(** C6, as the code has it.  A field of the scipy sparse convention whose
    coordinate form has as many row indices as column indices and as
    values, and a shape of two dimensions, is converted to a sparse tensor
    with one index pair (row, column) per stored entry, the values and the
    shape of the coordinate form, hence with the same entries, none left
    out; for any other coordinate form the conversion raises a
    [ValueError]; a field that is not of the convention is returned as it
    is, a batch without such a field is unchanged by the conversion, and the
    generator of the dataset yields every batch of the adapter converted in
    this way. *)
Theorem scipy_fields_become_sparse_tensors x m :
  is_scipy_sparse x = true ->
  tocoo x = Some m ->
  length (coo_row m) = length (coo_col m) ->
  length (coo_row m) = length (coo_data m) ->
  length (coo_shape m) = 2 ->
  (exists y,
     convert_to_tf x = Ok y /\
     isinstance y TfSparseTensor = true /\
     payload y =
       Sparse (zip_with (fun r c => [r; c]) (coo_row m) (coo_col m))
              (coo_data m) (coo_shape m) /\
     shape y = Some <$> coo_shape m /\
     sparse_entries y = coo_entries m /\
     length (coo_entries m) = length (coo_data m)) /\
  (forall z m',
     is_scipy_sparse z = true -> tocoo z = Some m' -> coo_well_formed m' = false ->
     exists msg, convert_to_tf z = Err (ValueError msg)) /\
  (forall z, is_scipy_sparse z = false -> convert_to_tf z = Ok z) /\
  (forall batch batch',
     map_structure convert_to_tf batch = Ok batch' ->
     Forall2 (fun a b => convert_to_tf a = Ok b /\ (is_scipy_sparse a = false -> b = a))
             (flatten batch) (flatten batch')) /\
  (forall batch,
     Forall (fun z => is_scipy_sparse z = false) (flatten batch) ->
     map_structure convert_to_tf batch = Ok batch) /\
  (forall self ds self' s batch s',
     get_tf_dataset self = (Ok ds, self') ->
     chain_next (generator self) s = (Ok batch, s') ->
     fst (fst (iter_next (ds_generator ds) s)) = map_structure convert_to_tf batch).
Proof.
  intros Hx Hm Hcol Hdata Hshape. split; [|split; [|split; [|split; [|split]]]].
  - rewrite (convert_to_tf_well_formed x m Hx Hm) by (by apply coo_well_formed_true).
    eexists. split; [done|]. split; [done|]. split; [done|]. split; [done|].
    unfold sparse_entries, coo_entries. simpl. rewrite index_pairs.
    split; [done|]. rewrite !length_zip. lia.
  - apply convert_to_tf_refused.
  - apply convert_to_tf_other.
  - intros batch batch' Hmap. apply map_structure_ok_inv in Hmap.
    eapply Forall2_impl; [exact Hmap|]. simpl. intros a b Hab. split; [done|].
    intros Ha. rewrite (convert_to_tf_other a Ha) in Hab. congruence.
  - intros batch Hall.
    rewrite (map_structure_total convert_to_tf id).
    + by rewrite tree_map_id.
    + eapply Forall_impl; [exact Hall|]. apply convert_to_tf_other.
  - intros self ds self' s batch s' Hds Hnext.
    destruct (get_tf_dataset_ok_inv _ _ _ Hds) as (signature & _ & Hgen & _ & -> & _).
    unfold iter_next. simpl. rewrite Hgen, Hnext.
    by destruct (map_structure convert_to_tf batch).
Qed.

(** ** When the signature can be computed *)

(** X1. The signature of an adapter can be computed exactly when every
    field of the first batch is valid: of rank at least 1 and with a dtype
    that [standardize_dtype] accepts.  With no signature stored yet,
    [get_tf_dataset] fails and leaves the adapter as it was when some field
    is not valid; when it succeeds, the dataset carries, and the adapter
    stores, the first batch with the descriptor of each field in place of
    the field, prefetching is set to [AUTOTUNE], and the generator of the
    dataset is a new one over the adapter's chain. *)
Theorem signature_is_computed_iff_fields_are_valid self :
  _output_signature self = None ->
  ((exists self', _set_tf_output_signature self = (Ok tt, self')) <->
   Forall valid_field (flatten (_first_batch self))) /\
  (Forall valid_field (flatten (_first_batch self)) ->
   _set_tf_output_signature self =
     (Ok tt, {| generator := generator self;
                _first_batch := _first_batch self;
                _output_signature :=
                  Some (tree_map claimed_spec (_first_batch self)) |})) /\
  (~ Forall valid_field (flatten (_first_batch self)) ->
   exists e, get_tf_dataset self = (Err e, self)) /\
  (forall ds self',
     get_tf_dataset self = (Ok ds, self') ->
     Forall valid_field (flatten (_first_batch self)) /\
     ds_output_signature ds = Some (tree_map claimed_spec (_first_batch self)) /\
     _output_signature self' = Some (tree_map claimed_spec (_first_batch self)) /\
     ds_prefetch ds = Some AUTOTUNE /\
     ds_generator ds = get_tf_iterator self).
Proof.
  intros Hnone.
  assert (Forall valid_field (flatten (_first_batch self)) ->
          map_structure get_tensor_spec (_first_batch self) =
            Ok (tree_map claimed_spec (_first_batch self))) as Hvalid.
  { intros Hall. apply map_structure_total.
    eapply Forall_impl; [exact Hall|]. apply get_tensor_spec_ok. }
  split; [split|split; [|split]].
  - intros [self' Hset]. unfold _set_tf_output_signature in Hset.
    destruct (map_structure get_tensor_spec (_first_batch self)) as [signature|e] eqn:Hmap;
      [|done].
    by destruct (signature_ok_inv _ _ Hmap).
  - intros Hall. unfold _set_tf_output_signature. rewrite (Hvalid Hall). by eexists.
  - intros Hall. unfold _set_tf_output_signature. by rewrite (Hvalid Hall).
  - intros Hinvalid. rewrite (get_tf_dataset_first _ Hnone).
    destruct (map_structure get_tensor_spec (_first_batch self)) as [signature|e] eqn:Hmap;
      [|by eexists].
    destruct Hinvalid. by destruct (signature_ok_inv _ _ Hmap).
  - intros ds self' Hds.
    destruct (get_tf_dataset_ok_inv _ _ _ Hds)
      as (signature & Hsig & Hgen & _ & -> & Hmap).
    destruct (signature_ok_inv _ _ (Hmap Hnone)) as [Hall ->].
    split; [done|]. split; [done|]. split; [done|]. split; [done|].
    simpl. unfold get_tf_iterator. by rewrite Hgen.
Qed.

(** X2. The exception of [get_tf_dataset] is that of the first field of
    the first batch, in the order of the traversal, that is not valid: when
    the fields before a field are valid, a rank 0 of the field gives its
    rank error, and a refused dtype gives the exception of
    [standardize_dtype], whatever the fields after it are. *)
Theorem first_invalid_field_is_reported self l1 x l2 :
  _output_signature self = None ->
  flatten (_first_batch self) = l1 ++ x :: l2 ->
  Forall valid_field l1 ->
  (shape x = [] -> get_tf_dataset self = (Err (rank_error x 0), self)) /\
  (forall e,
     1 <= length (shape x) -> standardize_dtype (dtype x) = Err e ->
     get_tf_dataset self = (Err e, self)).
Proof.
  intros Hnone Hfl Hvalid.
  assert (forall e, get_tensor_spec x = Err e ->
                    get_tf_dataset self = (Err e, self)) as Hfirst.
  { intros e Hx. rewrite (get_tf_dataset_first _ Hnone).
    destruct (map_structure get_tensor_spec (_first_batch self)) as [signature|e'] eqn:Hmap.
    - destruct (signature_ok_inv _ _ Hmap) as [Hall _].
      rewrite Hfl in Hall. apply Forall_app in Hall as [_ Hall].
      apply Forall_cons in Hall as [Hx' _].
      rewrite (get_tensor_spec_ok x Hx') in Hx. done.
    - destruct (map_structure_err_split _ _ _ Hmap) as (l1' & a & l2' & Hfl' & Hok' & Ha).
      assert (x = a) as <-.
      { eapply (first_failure_unique get_tensor_spec l1 x l2 l1' a l2').
        - by rewrite <- Hfl.
        - eapply Forall_impl; [exact Hvalid|]. intros y Hy.
          exists (claimed_spec y). by apply get_tensor_spec_ok.
        - exact Hx.
        - exact Hok'.
        - exact Ha. }
      congruence. }
  split.
  - intros Hshape. apply Hfirst. by apply get_tensor_spec_rank_0.
  - intros e Hrank Hdtype. apply Hfirst. by apply get_tensor_spec_refused.
Qed.

Lemma call_keeps self m :
  generator (call self m) = generator self /\
  _first_batch (call self m) = _first_batch self /\
  (forall signature,
     _output_signature (call self m) = Some signature ->
     _output_signature self = Some signature \/
     map_structure get_tensor_spec (_first_batch self) = Ok signature).
Proof.
  destruct m; simpl; try (by repeat split; auto).
  destruct (get_tf_dataset self) as [[ds|e] self'] eqn:Hds; simpl.
  - destruct (get_tf_dataset_ok_inv _ _ _ Hds) as (sig & Hsig & Hgen & Hfb & _ & Hmap).
    split; [done|]. split; [done|]. intros signature Hsome.
    destruct (_output_signature self) as [sig0|] eqn:Hold.
    + rewrite (get_tf_dataset_cached _ _ Hold) in Hds. injection Hds as _ <-.
      left. congruence.
    + right. rewrite (Hmap eq_refl). congruence.
  - destruct (get_tf_dataset_err_inv _ _ _ Hds) as (-> & _ & _). auto.
Qed.

(** X3. For an adapter that the constructor has returned, whatever methods
    are called afterwards: the adapter keeps the chain and the first batch
    of its construction, the first batch is a tuple, and a stored signature
    is never anything but the descriptors of the fields of the first batch,
    which then all have rank at least 1 and an accepted dtype. *)
Theorem adapter_keeps_what_it_peeked g s self s1 ms :
  __init__ g s = (Ok self, s1) ->
  let self' := fold_left call ms self in
  generator self' = generator self /\
  _first_batch self' = _first_batch self /\
  is_tuple (_first_batch self') = true /\
  (forall signature,
     _output_signature self' = Some signature ->
     signature = tree_map claimed_spec (_first_batch self) /\
     is_tuple signature = true /\
     Forall (fun x => 1 <= length (shape x)) (flatten (_first_batch self)) /\
     Forall (fun x => standardize_dtype (dtype x) = Ok (standardized (dtype x)))
            (flatten (_first_batch self)) /\
     map_structure get_tensor_spec (_first_batch self) = Ok signature).
Proof.
  intros Hinit.
  destruct (init_ok_inv _ _ _ _ Hinit) as (o & v & _ & _ & Ht & -> & _).
  set (self := {| generator := fresh (dom (chains s)); _first_batch := v;
                  _output_signature := None |}).
  assert (forall ms a,
            generator a = generator self -> _first_batch a = v ->
            (forall sig, _output_signature a = Some sig ->
                         map_structure get_tensor_spec v = Ok sig) ->
            generator (fold_left call ms a) = generator self /\
            _first_batch (fold_left call ms a) = v /\
            (forall sig, _output_signature (fold_left call ms a) = Some sig ->
                         map_structure get_tensor_spec v = Ok sig)) as Hinv.
  { clear ms. induction ms as [|m ms IH]; intros a Hgen Hfb Hsig; [done|].
    simpl. destruct (call_keeps a m) as (Hgen' & Hfb' & Hsig').
    apply IH; [congruence|congruence|].
    intros sig Hsome. destruct (Hsig' sig Hsome) as [Hold|Hnew]; [auto|].
    by rewrite <- Hfb. }
  destruct (Hinv ms self) as (Hgen & Hfb & Hsig); [done..|].
  intros self'. subst self'. split; [done|]. split; [done|].
  split; [by rewrite Hfb|].
  intros signature Hsome. pose proof (Hsig _ Hsome) as Hmap.
  destruct (signature_ok_inv _ _ Hmap) as [Hvalid ->].
  split; [done|]. split; [simpl; by destruct v as [|[] ?]|].
  split; [eapply Forall_impl; [exact Hvalid|]; by intros x [? ?]|].
  split; [|done].
  eapply Forall_impl; [exact Hvalid|]. intros x [_ Hacc].
  by apply accepted_standardized.
Qed.

(** ** More on the conversion of fields *)

Lemma convert_to_tf_convertible x :
  convertible x = true -> convert_to_tf x = Ok (converted_field x).
Proof.
  unfold convertible, converted_field.
  destruct (is_scipy_sparse x) eqn:Hx; simpl; [|by intros; apply convert_to_tf_other].
  destruct (tocoo x) as [m|] eqn:Hm.
  - by apply convert_to_tf_well_formed.
  - unfold is_scipy_sparse in Hx. rewrite Hm in Hx.
    apply andb_true_iff in Hx as [_ Hx%bool_decide_eq_true]. by destruct Hx.
Qed.

Lemma convert_to_tf_not_convertible x :
  convertible x = false -> exists msg, convert_to_tf x = Err (ValueError msg).
Proof.
  unfold convertible. intros Hc. apply orb_false_iff in Hc as [Hx Hm].
  apply negb_false_iff in Hx.
  destruct (tocoo x) as [m|] eqn:Htocoo; [|done].
  by apply (convert_to_tf_refused x m).
Qed.

Lemma convert_to_tf_ok_inv x y :
  convert_to_tf x = Ok y -> convertible x = true /\ y = converted_field x.
Proof.
  intros Hy. destruct (convertible x) eqn:Hc.
  - rewrite (convert_to_tf_convertible x Hc) in Hy. split; [done|]. congruence.
  - destruct (convert_to_tf_not_convertible x Hc) as [msg Hmsg]. congruence.
Qed.

Lemma convert_to_tf_err_inv x e :
  convert_to_tf x = Err e ->
  convertible x = false /\ exists msg, e = ValueError msg.
Proof.
  destruct (convertible x) eqn:Hc.
  - by rewrite (convert_to_tf_convertible x Hc).
  - destruct (convert_to_tf_not_convertible x Hc) as [msg ->].
    intros [= <-]. split; [done|]. by eexists.
Qed.

Lemma convert_to_tf_result x y :
  convert_to_tf x = Ok y -> is_scipy_sparse y = false.
Proof.
  intros Hy. destruct (convert_to_tf_ok_inv x y Hy) as [_ ->].
  unfold converted_field. destruct (is_scipy_sparse x) eqn:Hx; [|done].
  destruct (tocoo x) as [m|] eqn:Hm; [reflexivity|].
  unfold is_scipy_sparse in Hx. rewrite Hm in Hx.
  apply andb_true_iff in Hx as [_ Hx%bool_decide_eq_true]. by destruct Hx.
Qed.

(** X4. A batch that the dataset's conversion has produced has the nesting
    of the original, has no field of the scipy sparse convention left, and
    is left as it is by a second conversion. *)
Theorem converted_batch_is_stable batch batch' :
  map_structure convert_to_tf batch = Ok batch' ->
  skeleton batch' = skeleton batch /\
  length (flatten batch') = length (flatten batch) /\
  Forall (fun y => is_scipy_sparse y = false) (flatten batch') /\
  map_structure convert_to_tf batch' = Ok batch'.
Proof.
  intros Hmap.
  assert (Forall (fun y => is_scipy_sparse y = false) (flatten batch')) as Hnone.
  { apply Forall_forall. intros y Hy.
    apply list_elem_of_lookup in Hy as [i Hi].
    destruct (Forall2_lookup_r _ _ _ _ _ (map_structure_ok_inv _ _ _ Hmap) Hi)
      as (x & _ & Hx).
    by apply (convert_to_tf_result x). }
  split; [by apply (map_structure_skeleton convert_to_tf)|].
  split; [symmetry; by apply (Forall2_length _ _ _ (map_structure_ok_inv _ _ _ Hmap))|].
  split; [done|].
  rewrite (map_structure_total convert_to_tf id); [by rewrite tree_map_id|].
  eapply Forall_impl; [exact Hnone|]. apply convert_to_tf_other.
Qed.

Lemma convert_batch_convertible (batch : pyval) :
  Forall (fun x => convertible x = true) (flatten batch) ->
  map_structure convert_to_tf batch = Ok (tree_map converted_field batch).
Proof.
  intros Hall. apply map_structure_total.
  eapply Forall_impl; [exact Hall|]. apply convert_to_tf_convertible.
Qed.

(** X5. The conversion of a batch succeeds exactly when the coordinate form
    of every field of the scipy sparse convention has as many row indices
    as column indices and as values, and a shape of two dimensions; the
    result is then the batch with the sparse tensor of its coordinate form
    in place of each such field.  When it fails, the exception is the
    [ValueError] that [np.concatenate] or [tf.SparseTensor] raises for the
    first field that has not, and never an [AttributeError]: [tocoo] is only
    called on objects that have it. *)
Theorem conversion_succeeds_iff_convertible batch :
  ((exists batch', map_structure convert_to_tf batch = Ok batch') <->
   Forall (fun x => convertible x = true) (flatten batch)) /\
  (Forall (fun x => convertible x = true) (flatten batch) ->
   map_structure convert_to_tf batch = Ok (tree_map converted_field batch)) /\
  (forall e,
     map_structure convert_to_tf batch = Err e ->
     (exists msg, e = ValueError msg) /\
     exists l1 x l2 m,
       flatten batch = l1 ++ x :: l2 /\
       Forall (fun y => convertible y = true) l1 /\
       is_scipy_sparse x = true /\ tocoo x = Some m /\
       coo_well_formed m = false /\ convert_to_tf x = Err e).
Proof.
  pose proof (convert_batch_convertible batch) as Hok.
  split; [split|split]; [| |done|].
  - intros [batch' Hmap]. apply Forall_forall. intros x Hx.
    apply list_elem_of_lookup in Hx as [i Hi].
    destruct (Forall2_lookup_l _ _ _ _ _ (map_structure_ok_inv _ _ _ Hmap) Hi)
      as (y & _ & Hy).
    by destruct (convert_to_tf_ok_inv x y Hy).
  - intros Hall. eexists. by apply Hok.
  - intros e Herr.
    destruct (map_structure_err_split _ _ _ Herr) as (l1 & x & l2 & Hfl & Hl1 & Hx).
    destruct (convert_to_tf_err_inv _ _ Hx) as [Hc Hmsg].
    split; [done|].
    unfold convertible in Hc. apply orb_false_iff in Hc as [Hsp Hm].
    apply negb_false_iff in Hsp.
    destruct (tocoo x) as [m|] eqn:Htocoo; [|done].
    exists l1, x, l2, m. split; [done|]. split; [|done].
    eapply Forall_impl; [exact Hl1|]. intros y [z Hz].
    by destruct (convert_to_tf_ok_inv y z Hz).
Qed.

Lemma agreeing_field_keeps_its_descriptor x :
  agrees_with_coo x = true -> valid_field x ->
  convertible x = true /\
  get_tensor_spec (converted_field x) = get_tensor_spec x.
Proof.
  unfold agrees_with_coo, convertible, converted_field. intros Hagree Hvalid.
  destruct (is_scipy_sparse x) eqn:Hx; simpl in Hagree |- *; [|done].
  destruct (tocoo x) as [m|] eqn:Hm; [|done].
  apply andb_true_iff in Hagree as [Hagree Hwf].
  apply andb_true_iff in Hagree as [Hagree Hdtype%bool_decide_eq_true].
  apply andb_true_iff in Hagree as [Hcls%bool_decide_eq_true Hshape%bool_decide_eq_true].
  split; [done|]. destruct Hvalid as [Hrank Hacc].
  rewrite (get_tensor_spec_ok x) by done.
  rewrite get_tensor_spec_ok.
  - unfold claimed_spec, claimed_kind. simpl. by rewrite Hcls, Hx, Hshape, Hdtype.
  - split; simpl; [by rewrite <- Hshape|by rewrite <- Hdtype].
Qed.

(** X6. When [get_tf_dataset] has succeeded and every field of the scipy
    sparse convention of the first batch has the shape and the dtype of its
    coordinate form, which the conversion accepts, the conversion of the
    first batch succeeds: it puts the sparse tensor of its coordinate form,
    with the entries of the matrix, in place of each such field and leaves
    the other fields as they are; and the signature inferred from the
    converted batch is the one that the dataset has been given, with a
    sparse descriptor exactly where the converted batch has a sparse
    tensor. *)
Theorem signature_describes_converted_batch self ds self' :
  _output_signature self = None ->
  get_tf_dataset self = (Ok ds, self') ->
  Forall (fun x => agrees_with_coo x = true) (flatten (_first_batch self)) ->
  exists batch' signature,
    map_structure convert_to_tf (_first_batch self) = Ok batch' /\
    ds_output_signature ds = Some signature /\
    map_structure get_tensor_spec batch' = Ok signature /\
    Forall2 (fun x y =>
               (is_scipy_sparse x = false /\ y = x) \/
               (exists m,
                  is_scipy_sparse x = true /\ tocoo x = Some m /\
                  y = sparse_tensor_of m /\ sparse_entries y = coo_entries m))
            (flatten (_first_batch self)) (flatten batch') /\
    Forall2 (fun x sp =>
               is_scipy_sparse x = true -> spec_kind_of sp = SparseTensorSpec)
            (flatten (_first_batch self)) (flatten signature).
Proof.
  intros Hnone Hds Hagree.
  destruct (get_tf_dataset_ok_inv _ _ _ Hds) as (signature & _ & _ & _ & -> & Hmap).
  specialize (Hmap Hnone). destruct (signature_ok_inv _ _ Hmap) as [Hvalid Hsig].
  assert (Forall (fun x => convertible x = true /\
                           get_tensor_spec (converted_field x) = get_tensor_spec x)
                 (flatten (_first_batch self))) as Hfields.
  { apply Forall_forall. intros x Hx. apply agreeing_field_keeps_its_descriptor.
    - by apply (proj1 (Forall_forall _ _) Hagree).
    - by apply (proj1 (Forall_forall _ _) Hvalid). }
  destruct (map_structure_compose convert_to_tf get_tensor_spec get_tensor_spec
              (_first_batch self)) as (batch' & Hconv & Hspec).
  { eapply Forall_impl; [exact Hfields|]. intros x [Hc Hx].
    exists (converted_field x). split; [by apply convert_to_tf_convertible|done]. }
  exists batch', signature. split; [done|]. split; [done|].
  split; [congruence|]. split.
  - pose proof (map_structure_ok_inv _ _ _ Hconv) as Hall.
    eapply Forall2_impl; [exact Hall|]. simpl. intros x y Hy.
    destruct (convert_to_tf_ok_inv x y Hy) as [Hc ->].
    unfold converted_field. destruct (is_scipy_sparse x) eqn:Hx; [|by left].
    destruct (tocoo x) as [m|] eqn:Hm.
    + right. exists m. split; [done|]. split; [done|]. split; [done|].
      unfold sparse_entries, coo_entries. simpl. by rewrite index_pairs.
    + unfold is_scipy_sparse in Hx. rewrite Hm in Hx.
      apply andb_true_iff in Hx as [_ Hx%bool_decide_eq_true]. by destruct Hx.
  - rewrite Hsig, flatten_tree_map. apply Forall2_fmap_r.
    apply Forall_Forall2_diag. eapply Forall_impl; [exact Hagree|].
    intros x Hag Hx. unfold agrees_with_coo in Hag. rewrite Hx in Hag. simpl in Hag.
    destruct (tocoo x) as [m|]; [|done].
    apply andb_true_iff in Hag as [Hag _]. apply andb_true_iff in Hag as [Hag _].
    apply andb_true_iff in Hag as [Hcls%bool_decide_eq_true _].
    unfold claimed_spec, claimed_kind. simpl. by rewrite Hcls, Hx.
Qed.

(** ** One sequence behind every iterator of the adapter *)

Lemma chain_over_after_peek g s o v :
  gens s !! g = Some o ->
  chain_over (fresh (dom (chains s))) g (g_body o) [v] (S (g_pos o)) (after_peek g o v s).
Proof.
  intros Hg. split; simpl; [by rewrite lookup_insert_eq|].
  left. by rewrite lookup_insert_eq.
Qed.

(** One [next] on the chain: an element of the list if one is left, else an
    element of the generator, else [StopIteration]. *)
Lemma chain_next_over c g body l q s :
  chain_over c g body l q s ->
  exists r s',
    chain_next c s = (r, s') /\
    match l, body q with
    | v :: l', _ => r = Ok v /\ chain_over c g body l' q s'
    | [], Some v => r = Ok v /\ chain_over c g body [] (S q) s'
    | [], None => r = Err StopIteration /\ chain_over c g body [] q s'
    end.
Proof.
  intros [Hg Hch]. unfold chain_next.
  assert (forall srcs, chains s !! c = Some srcs ->
            chain_step srcs s = chain_step [FromIter g] s ->
            l = [] ->
            exists r s',
              (let '(r, srcs', s') := chain_step srcs s in
               (r, set_chains <[c:=srcs']> s')) = (r, s') /\
              match body q with
              | Some v => r = Ok v /\ chain_over c g body [] (S q) s'
              | None => r = Err StopIteration /\ chain_over c g body [] q s'
              end) as Hgen.
  { intros srcs Hsrcs -> _. simpl. destruct (body q) as [v|] eqn:Hv.
    - rewrite (gen_next_yield g s _ v Hg Hv). eexists _, _. split; [done|].
      split; [done|]. split; simpl; [by rewrite lookup_insert_eq|].
      right. left. by rewrite lookup_insert_eq.
    - rewrite (gen_next_stop g s _ Hg Hv). eexists _, _. split; [done|].
      split; [done|]. split; simpl; [done|].
      right. right. by rewrite lookup_insert_eq. }
  destruct Hch as [Hc|[[-> Hc]|(-> & Hnone & Hc)]].
  - rewrite Hc. destruct l as [|v l'].
    + destruct (Hgen _ Hc eq_refl eq_refl) as (r & s' & Hstep & Hres).
      by exists r, s'.
    + simpl. eexists _, _. split; [done|]. split; [done|].
      split; simpl; [done|]. left. by rewrite lookup_insert_eq.
  - destruct (Hgen _ Hc eq_refl eq_refl) as (r & s' & Hstep & Hres).
    rewrite Hc. by exists r, s'.
  - rewrite Hc, Hnone. simpl. eexists _, _. split; [done|]. split; [done|].
    split; simpl; [done|]. right. right. by rewrite lookup_insert_eq.
Qed.

Lemma chain_items_cons v l body q n :
  chain_items (v :: l) body q (S n) = v :: chain_items l body q n.
Proof. done. Qed.

Lemma chain_items_nil body q n : chain_items [] body q n = gen_items body q n.
Proof. unfold chain_items. by rewrite take_nil, Nat.sub_0_r. Qed.

Lemma chain_items_peeked body pos v n :
  body pos = Some v -> chain_items [v] body (S pos) n = gen_items body pos n.
Proof.
  intros Hv. destruct n as [|n]; [done|].
  rewrite chain_items_cons, chain_items_nil. simpl. by rewrite Hv.
Qed.

(** Iterating over the chain with any iterator that converts the batches
    it meets: the batches come converted, in order, and the chain and the
    generator are left where the iteration stopped. *)
Lemma pull_over c g body f n :
  forall it s l q,
    it_source it = c -> it_closed it = false ->
    (forall b, b ∈ chain_items l body q n -> it_func it b = Ok (f b)) ->
    chain_over c g body l q s ->
    exists it' s',
      pull n it s = (f <$> chain_items l body q n, it', s') /\
      chain_over c g body (drop n l)
        (q + length (gen_items body q (n - length l))) s'.
Proof.
  induction n as [|n IH]; intros it s l q Hc Hopen Hf Hover.
  - exists it, s. split; [done|]. simpl. by rewrite Nat.add_0_r.
  - simpl pull. unfold iter_next. rewrite Hopen, Hc.
    destruct (chain_next_over _ _ _ _ _ _ Hover) as (r & s1 & -> & Hres).
    destruct l as [|v l'].
    + rewrite chain_items_nil in Hf |- *. simpl. simpl in Hf.
      destruct (body q) as [v|] eqn:Hv.
      * destruct Hres as [-> Hover1].
        rewrite (Hf v) by apply list_elem_of_here.
        destruct (IH it s1 [] (S q)) as (it' & s' & Hpull & Hover'); try done.
        { intros b Hb. rewrite chain_items_nil in Hb.
          apply Hf. by apply list_elem_of_further. }
        rewrite Hpull, chain_items_nil. exists it', s'. split; [done|].
        rewrite drop_nil in Hover'. simpl in Hover'. rewrite Nat.sub_0_r in Hover'.
        simpl length. by rewrite Nat.add_succ_r.
      * destruct Hres as [-> Hover1]. eexists _, _. split; [done|].
        by rewrite Nat.add_0_r.
    + destruct Hres as [-> Hover1]. rewrite chain_items_cons in Hf |- *.
      rewrite (Hf v) by apply list_elem_of_here.
      destruct (IH it s1 l' q) as (it' & s' & Hpull & Hover'); try done.
      { intros b Hb. apply Hf. by apply list_elem_of_further. }
      rewrite Hpull. by exists it', s'.
Qed.

Lemma gen_items_short body pos n :
  length (gen_items body pos n) < n ->
  body (pos + length (gen_items body pos n)) = None.
Proof.
  revert pos. induction n as [|n IH]; intros pos; simpl; [lia|].
  destruct (body pos) as [v|] eqn:Hv; simpl.
  - intros Hlt. rewrite Nat.add_succ_r. apply (IH (S pos)). lia.
  - intros _. by rewrite Nat.add_0_r.
Qed.

Lemma gen_items_exhausted body pos n : body pos = None -> gen_items body pos n = [].
Proof. intros Hv. destruct n; simpl; [done|]. by rewrite Hv. Qed.

(** The state of the chain after [n] elements have been taken from an
    adapter that has just been built. *)
Lemma chain_items_resumed body pos v n m :
  body pos = Some v ->
  chain_items (drop n [v]) body
    (S pos + length (gen_items body (S pos) (n - length [v]))) m =
  gen_items body (pos + length (gen_items body pos n)) m.
Proof.
  intros Hv. destruct n as [|n].
  - simpl. rewrite !Nat.add_0_r. by apply chain_items_peeked.
  - simpl. rewrite Hv, Nat.sub_0_r, drop_nil, chain_items_nil. simpl.
    by rewrite Nat.add_succ_r.
Qed.

Lemma tree_map_fixed {A} (f : A -> A) (t : tree A) :
  Forall (fun a => f a = a) (flatten t) -> tree_map f t = t.
Proof.
  induction t as [a|c l IH] using tree_induction.
  - simpl. rewrite Forall_singleton. by intros ->.
  - rewrite flatten_node. intros Hall. simpl. f_equal.
    induction IH as [|x l Hx _ IHl]; csimpl in *; [done|].
    apply Forall_app in Hall as [H1 H2]. by rewrite (Hx H1), (IHl H2).
Qed.

(** X7. The iterators of an adapter share one sequence.  After [n] calls of
    [next] on a numpy iterator, a new iterator of the adapter, whether for
    numpy, for JAX or for torch, does not start again: it delivers what
    follows the elements already delivered, and nothing at all once the
    generator has been found exhausted. *)
Theorem second_iteration_resumes g s o v n m :
  gens s !! g = Some o ->
  g_body o (g_pos o) = Some v ->
  is_tuple v = true ->
  exists self s1,
    __init__ g s = (Ok self, s1) /\
    let first := gen_items (g_body o) (g_pos o) n in
    let rest := gen_items (g_body o) (g_pos o + length first) m in
    exists it1 s2,
      pull n (get_numpy_iterator self) s1 = (convert_to_numpy <$> first, it1, s2) /\
      (exists it2 s3,
         pull m (get_numpy_iterator self) s2 = (convert_to_numpy <$> rest, it2, s3)) /\
      (exists it2 s3,
         pull m (get_jax_iterator self) s2 = (convert_to_jax <$> rest, it2, s3)) /\
      (exists it2 s3,
         pull m (get_torch_dataloader self) s2 = (convert_to_torch <$> rest, it2, s3)) /\
      (length first < n -> rest = []).
Proof.
  intros Hg Hv Ht. rewrite (init_yield g s o v Hg Hv), Ht.
  eexists _, _. split; [done|]. intros first rest. subst first rest.
  set (c := fresh (dom (chains s))).
  set (self := {| generator := c; _first_batch := v; _output_signature := None |}).
  destruct (pull_over c g (g_body o) convert_to_numpy n (get_numpy_iterator self)
              (after_peek g o v s) [v] (S (g_pos o)))
    as (it1 & s2 & Hpull & Hover); [done..|by apply chain_over_after_peek|].
  rewrite (chain_items_peeked _ _ _ n Hv) in Hpull.
  exists it1, s2. split; [done|].
  assert (forall f it, it_source it = c -> it_closed it = false ->
            (forall b, it_func it b = Ok (f b)) ->
            exists it2 s3,
              pull m it s2 =
                (f <$> gen_items (g_body o)
                         (g_pos o + length (gen_items (g_body o) (g_pos o) n)) m,
                 it2, s3)) as Hnext.
  { intros f it Hsrc Hopen Hf.
    destruct (pull_over c g (g_body o) f m it s2 _ _ Hsrc Hopen (fun b _ => Hf b) Hover)
      as (it2 & s3 & Hpull2 & _).
    rewrite (chain_items_resumed _ _ _ n m Hv) in Hpull2. by exists it2, s3. }
  split; [by apply Hnext|]. split; [by apply Hnext|]. split; [by apply Hnext|].
  intros Hshort. apply gen_items_exhausted. by apply gen_items_short.
Qed.

(** X8. The chain holds the caller's generator itself, not a copy of it:
    an element that the caller takes from the generator after the adapter
    has been built never reaches the adapter, whose iterator delivers the
    peeked element and then what follows the element taken. *)
Theorem elements_taken_by_the_caller_are_skipped g s o v w n :
  gens s !! g = Some o ->
  g_body o (g_pos o) = Some v ->
  is_tuple v = true ->
  g_body o (S (g_pos o)) = Some w ->
  exists self s1 s2,
    __init__ g s = (Ok self, s1) /\
    gen_next g s1 = (Ok w, s2) /\
    exists it' s3,
      pull (S n) (get_numpy_iterator self) s2 =
        (convert_to_numpy <$> (v :: gen_items (g_body o) (S (S (g_pos o))) n), it', s3).
Proof.
  intros Hg Hv Ht Hw. rewrite (init_yield g s o v Hg Hv), Ht.
  set (c := fresh (dom (chains s))).
  set (self := {| generator := c; _first_batch := v; _output_signature := None |}).
  assert (gens (after_peek g o v s) !! g = Some (advance o)) as Hg1.
  { simpl. by rewrite lookup_insert_eq. }
  eexists _, _, _. split; [done|].
  split; [exact (gen_next_yield g _ (advance o) w Hg1 Hw)|].
  destruct (pull_over c g (g_body o) convert_to_numpy (S n) (get_numpy_iterator self)
              (set_gens <[g := advance (advance o)]> (after_peek g o v s))
              [v] (S (S (g_pos o))))
    as (it' & s3 & Hpull & _); [done..| |].
  { split; simpl; [by rewrite lookup_insert_eq|]. left. by rewrite lookup_insert_eq. }
  rewrite chain_items_cons, chain_items_nil in Hpull. by exists it', s3.
Qed.

(** X9. The generator of the dataset delivers the batches of the caller's
    generator in their order, each with the sparse tensor of its coordinate
    form in place of every field of the scipy sparse convention and with
    its other fields as they are, as long as the conversion accepts the
    coordinate forms; batches without such a field come out as they went
    in. *)
Theorem dataset_generator_yields_converted_batches g s o v n :
  gens s !! g = Some o ->
  g_body o (g_pos o) = Some v ->
  is_tuple v = true ->
  (forall b, b ∈ gen_items (g_body o) (g_pos o) n ->
             Forall (fun x => convertible x = true) (flatten b)) ->
  exists self s1,
    __init__ g s = (Ok self, s1) /\
    (forall ds self',
       get_tf_dataset self = (Ok ds, self') -> ds_generator ds = get_tf_iterator self) /\
    exists it' s',
      pull n (get_tf_iterator self) s1 =
        (tree_map converted_field <$> gen_items (g_body o) (g_pos o) n, it', s') /\
      ((forall b, b ∈ gen_items (g_body o) (g_pos o) n ->
                  Forall (fun x => is_scipy_sparse x = false) (flatten b)) ->
       pull n (get_tf_iterator self) s1 = (gen_items (g_body o) (g_pos o) n, it', s')).
Proof.
  intros Hg Hv Ht Hconv. rewrite (init_yield g s o v Hg Hv), Ht.
  eexists _, _. split; [done|].
  set (c := fresh (dom (chains s))).
  set (self := {| generator := c; _first_batch := v; _output_signature := None |}).
  split.
  { intros ds self' Hds.
    destruct (get_tf_dataset_ok_inv _ _ _ Hds) as (sig & _ & Hgen & _ & -> & _).
    simpl. unfold get_tf_iterator. by rewrite Hgen. }
  destruct (pull_over c g (g_body o) (tree_map converted_field) n (get_tf_iterator self)
              (after_peek g o v s) [v] (S (g_pos o)))
    as (it' & s' & Hpull & _); [done|done| |by apply chain_over_after_peek|].
  { intros b Hb. rewrite (chain_items_peeked _ _ _ n Hv) in Hb.
    apply convert_batch_convertible. by apply Hconv. }
  rewrite (chain_items_peeked _ _ _ n Hv) in Hpull.
  exists it', s'. split; [done|]. intros Hdense. rewrite Hpull.
  rewrite fmap_fixed; [done|]. intros b Hb. apply tree_map_fixed.
  eapply Forall_impl; [exact (Hdense b Hb)|]. intros x Hx.
  unfold converted_field. by rewrite Hx.
Qed.

Lemma gen_items_length body pos n : length (gen_items body pos n) <= n.
Proof.
  revert pos. induction n as [|n IH]; intros pos; simpl; [lia|].
  destruct (body pos); simpl; [|lia]. specialize (IH (S pos)). lia.
Qed.

(** Iterating up to a batch that the iterator cannot convert: the batches
    before it come converted, the iterator is closed, and the chain is left
    after the batch. *)
Lemma pull_until_failure c g body f e k :
  forall n it s l q b,
    it_source it = c -> it_closed it = false ->
    chain_over c g body l q s ->
    k < n ->
    chain_items l body q (S k) !! k = Some b ->
    (forall b', b' ∈ chain_items l body q k -> it_func it b' = Ok (f b')) ->
    it_func it b = Err e ->
    exists s',
      pull n it s = (f <$> chain_items l body q k, close it, s') /\
      chain_over c g body (drop (S k) l)
        (q + length (gen_items body q (S k - length l))) s'.
Proof.
  induction k as [|k IH]; intros n it s l q b Hsrc Hopen Hover Hlt Hb Hf He;
    (destruct n as [|n]; [lia|]); simpl pull; unfold iter_next;
    rewrite Hopen, Hsrc;
    destruct (chain_next_over _ _ _ _ _ _ Hover) as (r & s1 & -> & Hres);
    destruct l as [|v l'].
  - rewrite chain_items_nil in Hb. simpl in Hb |- *.
    destruct (body q) as [v|] eqn:Hv; [|done].
    destruct Hres as [-> Hover1]. injection Hb as ->. rewrite He.
    exists s1. split; [done|]. simpl. by rewrite Nat.add_1_r.
  - rewrite chain_items_cons in Hb. injection Hb as ->.
    destruct Hres as [-> Hover1]. rewrite He.
    exists s1. split; [done|]. simpl. by rewrite Nat.add_0_r.
  - rewrite chain_items_nil in Hb, Hf |- *. simpl in Hb, Hf |- *.
    destruct (body q) as [v|] eqn:Hv; [|done].
    destruct Hres as [-> Hover1]. simpl in Hb.
    rewrite (Hf v) by apply list_elem_of_here.
    destruct (IH n it s1 [] (S q) b) as (s' & Hpull & Hover');
      [done|done|done|lia| | |done|].
    { rewrite chain_items_nil. exact Hb. }
    { intros b' Hb'. rewrite chain_items_nil in Hb'.
      apply Hf. by apply list_elem_of_further. }
    rewrite Hpull, chain_items_nil. exists s'. split; [done|].
    rewrite drop_nil in Hover'. rewrite Nat.sub_0_r in Hover'.
    simpl length. by rewrite Nat.add_succ_r.
  - rewrite chain_items_cons in Hb, Hf |- *.
    destruct Hres as [-> Hover1]. simpl in Hb.
    rewrite (Hf v) by apply list_elem_of_here.
    destruct (IH n it s1 l' q b) as (s' & Hpull & Hover');
      [done|done|done|lia|exact Hb| |done|].
    { intros b' Hb'. apply Hf. by apply list_elem_of_further. }
    rewrite Hpull. by exists s'.
Qed.

(** X10. When the conversion of a batch raises in the generator of the
    dataset, the batch has been taken from the chain and is lost: the
    batches before it have been delivered, the generator is closed and
    delivers nothing more, and a new iterator of the adapter starts with the
    batch after the one that failed.  Here [b] is the batch number [k] of
    the sequence, counted from 0, the peeked batch being number 0. *)
Theorem failed_conversion_loses_the_batch g s o v k b e n m :
  gens s !! g = Some o ->
  g_body o (g_pos o) = Some v ->
  is_tuple v = true ->
  gen_items (g_body o) (g_pos o) (S k) !! k = Some b ->
  (forall b', b' ∈ gen_items (g_body o) (g_pos o) k ->
              Forall (fun x => convertible x = true) (flatten b')) ->
  map_structure convert_to_tf b = Err e ->
  k < n ->
  exists self s1 s2,
    __init__ g s = (Ok self, s1) /\
    let it := get_tf_iterator self in
    pull n it s1 =
      (tree_map converted_field <$> gen_items (g_body o) (g_pos o) k, close it, s2) /\
    gens s2 !! g = Some {| g_body := g_body o; g_pos := g_pos o + S k |} /\
    pull m (close it) s2 = ([], close it, s2) /\
    exists it' s3,
      pull m (get_numpy_iterator self) s2 =
        (convert_to_numpy <$> gen_items (g_body o) (g_pos o + S k) m, it', s3).
Proof.
  intros Hg Hv Ht Hb Hconv Herr Hlt. rewrite (init_yield g s o v Hg Hv), Ht.
  set (c := fresh (dom (chains s))).
  set (self := {| generator := c; _first_batch := v; _output_signature := None |}).
  destruct (pull_until_failure c g (g_body o) (tree_map converted_field) e k n
              (get_tf_iterator self) (after_peek g o v s) [v] (S (g_pos o)) b)
    as (s2 & Hpull & Hover); [done|done|by apply chain_over_after_peek|done| | |done|].
  { by rewrite (chain_items_peeked _ _ _ (S k) Hv). }
  { intros b' Hb'. rewrite (chain_items_peeked _ _ _ k Hv) in Hb'.
    apply convert_batch_convertible. by apply Hconv. }
  rewrite (chain_items_peeked _ _ _ k Hv) in Hpull.
  assert (length (gen_items (g_body o) (S (g_pos o)) k) = k) as Hlen.
  { pose proof (gen_items_length (g_body o) (S (g_pos o)) k) as Hle.
    apply lookup_lt_Some in Hb. simpl in Hb. rewrite Hv in Hb. simpl in Hb.
    apply Nat.le_antisymm; [exact Hle|]. apply Nat.lt_succ_r. exact Hb. }
  simpl in Hover. rewrite drop_nil, Nat.sub_0_r, Hlen in Hover.
  replace (S (g_pos o + k)) with (g_pos o + S k) in Hover by lia.
  exists self, (after_peek g o v s), s2. split; [done|]. intros it. subst it.
  split; [done|]. split; [by destruct Hover|]. split; [by destruct m|].
  destruct (pull_over c g (g_body o) convert_to_numpy m (get_numpy_iterator self)
              s2 [] (g_pos o + S k)) as (it' & s3 & Hpull' & _); [done..|].
  rewrite chain_items_nil in Hpull'. by exists it', s3.
Qed.

(** ** Adapters of different generators *)

(** What a [next] on the chain changes in the store: the chain, and at most
    the generator behind it. *)
Lemma chain_next_store c g body l q s :
  chain_over c g body l q s ->
  exists srcs',
    snd (chain_next c s) = set_chains <[c := srcs']> s \/
    exists o', snd (chain_next c s) = set_chains <[c := srcs']> (set_gens <[g := o']> s).
Proof.
  intros [Hg Hch]. unfold chain_next.
  assert (forall srcs, chain_step srcs s = chain_step [FromIter g] s ->
            exists srcs',
              snd (let '(r, srcs', s') := chain_step srcs s in
                   (r, set_chains <[c:=srcs']> s')) = set_chains <[c := srcs']> s \/
              exists o',
                snd (let '(r, srcs', s') := chain_step srcs s in
                     (r, set_chains <[c:=srcs']> s')) =
                  set_chains <[c := srcs']> (set_gens <[g := o']> s)) as Hgen.
  { intros srcs ->. simpl. destruct (body q) as [v|] eqn:Hv.
    - rewrite (gen_next_yield g s _ v Hg Hv). eexists. right. by eexists.
    - rewrite (gen_next_stop g s _ Hg Hv). eexists. by left. }
  destruct Hch as [Hc|[[-> Hc]|(-> & Hnone & Hc)]]; rewrite Hc.
  - destruct l as [|v l']; [by apply Hgen|]. simpl. eexists. by left.
  - by apply Hgen.
  - simpl. eexists. by left.
Qed.

Lemma chain_next_frame c g body l q c' g' body' l' q' s :
  c <> c' -> g <> g' ->
  chain_over c g body l q s -> chain_over c' g' body' l' q' s ->
  chain_over c' g' body' l' q' (snd (chain_next c s)).
Proof.
  intros Hc Hg Hover [Hg' Hch'].
  destruct (chain_next_store _ _ _ _ _ _ Hover) as (srcs' & [-> | [o' ->]]);
    (split; simpl; [|rewrite lookup_insert_ne by done; exact Hch']).
  - done.
  - by rewrite lookup_insert_ne.
Qed.

Lemma pull_frame c g body c' g' body' l' q' n :
  c <> c' -> g <> g' ->
  forall it s l q,
    it_source it = c ->
    chain_over c g body l q s -> chain_over c' g' body' l' q' s ->
    chain_over c' g' body' l' q' (snd (pull n it s)).
Proof.
  intros Hc Hg. induction n as [|n IH]; intros it s l q Hsrc Hover Hover'; [done|].
  simpl. unfold iter_next. destruct (it_closed it); [done|]. rewrite Hsrc.
  pose proof (chain_next_frame _ _ _ _ _ _ _ _ _ _ _ Hc Hg Hover Hover') as Hframe.
  destruct (chain_next_over _ _ _ _ _ _ Hover) as (r & s1 & Hnext & Hres).
  rewrite Hnext in Hframe |- *. simpl in Hframe.
  assert (forall v lq qq,
            chain_over c g body lq qq s1 ->
            chain_over c' g' body' l' q'
              (snd (match it_func it v with
                    | Ok b =>
                        let '(bs, it'', s'') := pull n it s1 in (b :: bs, it'', s'')
                    | Err e => ([], close it, s1)
                    end))) as Hstep.
  { intros v lq qq Hover1. destruct (it_func it v) as [b|e]; [|done].
    specialize (IH it s1 lq qq Hsrc Hover1 Hframe).
    by destruct (pull n it s1) as [[bs it''] s'']. }
  destruct l as [|v l'0].
  - destruct (body q) as [v|]; destruct Hres as [-> Hover1]; [|done].
    specialize (Hstep v _ _ Hover1). by destruct (it_func it v).
  - destruct Hres as [-> Hover1].
    specialize (Hstep v _ _ Hover1). by destruct (it_func it v).
Qed.

(** X11. Adapters built over different generators do not interfere: the
    second construction gives a chain of its own, and however far the second
    adapter is iterated, the first one still delivers the whole sequence of
    its generator. *)
Theorem adapters_of_different_generators_are_independent g1 g2 s o1 o2 v1 v2 n m :
  g1 <> g2 ->
  gens s !! g1 = Some o1 -> gens s !! g2 = Some o2 ->
  g_body o1 (g_pos o1) = Some v1 -> g_body o2 (g_pos o2) = Some v2 ->
  is_tuple v1 = true -> is_tuple v2 = true ->
  exists a1 s1 a2 s2,
    __init__ g1 s = (Ok a1, s1) /\
    __init__ g2 s1 = (Ok a2, s2) /\
    generator a1 <> generator a2 /\
    exists it2 s3 it1 s4,
      pull n (get_numpy_iterator a2) s2 =
        (convert_to_numpy <$> gen_items (g_body o2) (g_pos o2) n, it2, s3) /\
      pull m (get_numpy_iterator a1) s3 =
        (convert_to_numpy <$> gen_items (g_body o1) (g_pos o1) m, it1, s4).
Proof.
  intros Hne Hg1 Hg2 Hv1 Hv2 Ht1 Ht2.
  rewrite (init_yield g1 s o1 v1 Hg1 Hv1), Ht1.
  set (c1 := fresh (dom (chains s))). set (s1 := after_peek g1 o1 v1 s).
  assert (gens s1 !! g2 = Some o2) as Hg2'.
  { simpl. by rewrite lookup_insert_ne. }
  eexists _, s1, _, _. split; [done|].
  rewrite (init_yield g2 s1 o2 v2 Hg2' Hv2), Ht2.
  set (c2 := fresh (dom (chains s1))). set (s2 := after_peek g2 o2 v2 s1).
  split; [done|].
  assert (c1 <> c2) as Hc.
  { intros Heq. apply (is_fresh (dom (chains s1))). fold c2. rewrite <- Heq.
    apply elem_of_dom. simpl. fold c1. rewrite lookup_insert_eq. by eexists. }
  split; [done|].
  assert (chain_over c1 g1 (g_body o1) [v1] (S (g_pos o1)) s2) as Hover1.
  { split; simpl; fold c1 c2.
    - rewrite lookup_insert_ne by done. by rewrite lookup_insert_eq.
    - left. rewrite lookup_insert_ne by done. by rewrite lookup_insert_eq. }
  pose proof (chain_over_after_peek g2 s1 o2 v2 Hg2') as Hover2. fold c2 s2 in Hover2.
  set (a1 := {| generator := c1; _first_batch := v1; _output_signature := None |}).
  set (a2 := {| generator := c2; _first_batch := v2; _output_signature := None |}).
  destruct (pull_over c2 g2 (g_body o2) convert_to_numpy n (get_numpy_iterator a2)
              s2 [v2] (S (g_pos o2))) as (it2 & s3 & Hpull2 & _); [done..|].
  pose proof (pull_frame c2 g2 (g_body o2) c1 g1 (g_body o1) [v1] (S (g_pos o1)) n
                (not_eq_sym Hc) (not_eq_sym Hne) (get_numpy_iterator a2) s2 _ _
                eq_refl Hover2 Hover1) as Hover1'.
  rewrite Hpull2 in Hover1'. simpl in Hover1'.
  rewrite (chain_items_peeked _ _ _ n Hv2) in Hpull2.
  destruct (pull_over c1 g1 (g_body o1) convert_to_numpy m (get_numpy_iterator a1)
              s3 [v1] (S (g_pos o1))) as (it1 & s4 & Hpull1 & _); [done..|].
  rewrite (chain_items_peeked _ _ _ m Hv1) in Hpull1.
  by exists it2, s3, it1, s4.
Qed.

(** ** Batches of other sizes *)

Lemma skeleton_length {A B} (t1 : tree A) (t2 : tree B) :
  skeleton t1 = skeleton t2 -> length (flatten t1) = length (flatten t2).
Proof.
  intros Hsk. apply (f_equal flatten) in Hsk. unfold skeleton in Hsk.
  rewrite !flatten_tree_map in Hsk. apply (f_equal length) in Hsk.
  by rewrite !length_fmap in Hsk.
Qed.

Lemma tree_map_eq {A B C} (f : A -> C) (g : B -> C) (t1 : tree A) :
  forall t2 : tree B,
    skeleton t1 = skeleton t2 ->
    Forall2 (fun a b => f a = g b) (flatten t1) (flatten t2) ->
    tree_map f t1 = tree_map g t2.
Proof.
  induction t1 as [a|c l IH] using tree_induction; intros [b|c' l2] Hsk Hall;
    try discriminate Hsk.
  - simpl in Hall. apply Forall2_cons in Hall as [Hab _]. simpl. by rewrite Hab.
  - injection Hsk as -> Hsk. rewrite !flatten_node in Hall. simpl. f_equal.
    revert l2 Hsk Hall.
    induction IH as [|x l Hx _ IHl]; intros [|y l2]; csimpl; try done.
    intros [= Hy Hl] Hall.
    apply Forall2_app_inv in Hall as [H1 H2]; [|by apply skeleton_length].
    f_equal; [by apply Hx|by apply IHl].
Qed.

(** X12. The signature does not depend on the number of samples of the
    first batch: a batch with the nesting of the first batch, whose fields
    have rank at least 1 and differ from those of the first batch only in
    their leading dimension and their values, has the signature that
    [get_tf_dataset] has computed from the first batch. *)
Theorem signature_fits_other_batch_sizes self ds self' batch :
  _output_signature self = None ->
  get_tf_dataset self = (Ok ds, self') ->
  skeleton batch = skeleton (_first_batch self) ->
  Forall (fun x => 1 <= length (shape x)) (flatten batch) ->
  Forall2 (fun x y =>
             tail (shape x) = tail (shape y) /\ dtype x = dtype y /\
             tf_type x = tf_type y /\ is_scipy_sparse x = is_scipy_sparse y)
          (flatten batch) (flatten (_first_batch self)) ->
  exists signature,
    ds_output_signature ds = Some signature /\
    map_structure get_tensor_spec batch = Ok signature.
Proof.
  intros Hnone Hds Hsk Hrank Hsame.
  destruct (get_tf_dataset_ok_inv _ _ _ Hds) as (signature & _ & _ & _ & -> & Hmap).
  destruct (signature_ok_inv _ _ (Hmap Hnone)) as [Hvalid ->].
  eexists. split; [done|].
  assert (Forall valid_field (flatten batch)) as Hvalid'.
  { apply Forall_forall. intros x Hx.
    split; [by apply (proj1 (Forall_forall _ _) Hrank)|].
    apply list_elem_of_lookup in Hx as [i Hi].
    destruct (Forall2_lookup_l _ _ _ _ _ Hsame Hi) as (y & Hy & _ & Hdtype & _).
    rewrite Hdtype.
    apply (proj1 (Forall_forall _ _) Hvalid y). apply list_elem_of_lookup. eauto. }
  rewrite (map_structure_total get_tensor_spec claimed_spec).
  - f_equal. apply tree_map_eq; [done|].
    eapply Forall2_impl; [exact Hsame|]. simpl.
    intros x y (Hshape & Hdtype & Hcls & Hsp).
    unfold claimed_spec, claimed_kind. by rewrite Hshape, Hdtype, Hcls, Hsp.
  - eapply Forall_impl; [exact Hvalid'|]. apply get_tensor_spec_ok.
Qed.

End Adapter.

(** ** The properties on concrete generators *)

(** A generator of the two batches: both come out of the numpy iterator, in
    order, and a third call of [next] finds nothing more. *)
Lemma plain_iteration_restores_sequence_witness :
  exists self s1,
    __init__ 0 (store_with [batch_1; batch_2]) = (Ok self, s1) /\
    fst (fst (pull 3 (get_numpy_iterator id self) s1)) = [batch_1; batch_2].
Proof.
  destruct (plain_iteration_restores_sequence id 0 (store_with [batch_1; batch_2])
              {| g_body := yields [batch_1; batch_2]; g_pos := 0 |} batch_1)
    as (self & s1 & Hinit & _ & Hpull); [reflexivity..|].
  exists self, s1. split; [exact Hinit|].
  destruct (Hpull 3) as (it' & s' & H & _). rewrite H. reflexivity.
Defined.

(** A generator whose first element is a bare array: the validation error,
    with the array at the end of the message. *)
Lemma construction_fails_iff_not_tuple_witness :
  exists text,
    fst (__init__ 0 (store_with [bare_array; batch_1])) =
      Err (ValueError [Text text; Repr bare_array]).
Proof.
  destruct (construction_fails_iff_not_tuple 0 (store_with [bare_array; batch_1])
              {| g_body := yields [bare_array; batch_1]; g_pos := 0 |} bare_array)
    as (_ & Hfail & _); [reflexivity..|].
  destruct (Hfail eq_refl) as (text & Herr & _). exists text. exact Herr.
Defined.

(** A tuple of four arrays is not a tuple of one to three elements, and
    construction accepts it. *)
Lemma tuple_of_four_is_accepted :
  ~ ((exists msg, fst (__init__ 0 (store_with [batch_of_4])) = Err (ValueError msg))
     <-> is_tuple_of_1_to_3 batch_of_4 = false).
Proof.
  intros [_ Hfail]. destruct (Hfail eq_refl) as [msg Hmsg].
  vm_compute in Hmsg. discriminate Hmsg.
Qed.

(** The descriptor of the array [[[1, 2]]]. *)
Lemma signature_of_rank_1_field_witness :
  exists sp,
    get_tensor_spec keras_standardize_dtype (ndarray [1; 2] "int64" [1; 2]%Z) = Ok sp /\
    spec_kind_of sp = TensorSpec /\
    spec_shape sp = [None; Some 2] /\
    spec_dtype sp = "int64".
Proof.
  destruct (signature_of_rank_1_field keras_standardize_dtype
              (ndarray [1; 2] "int64" [1; 2]%Z) "int64")
    as (sp & Hsp & Hshape & _ & Hdtype & Hkind & _); [simpl; lia|reflexivity|].
  exists sp. split; [exact Hsp|]. split; [exact Hkind|].
  split; [exact Hshape|exact Hdtype].
Defined.

(** A rank-1 array of complex numbers: keras refuses its dtype, and no
    descriptor is inferred. *)
Lemma complex_field_has_no_descriptor :
  let x := {| class_module := "numpy"; tf_type := OtherClass;
              shape := [Some 3]; dtype := "complex128";
              tocoo := None; payload := Dense [1; 2; 3]%Z |} in
  1 <= length (shape x) /\
  ~ exists sp, get_tensor_spec keras_standardize_dtype x = Ok sp.
Proof.
  intros x. split; [simpl; lia|]. intros [sp Hsp]. vm_compute in Hsp. discriminate Hsp.
Qed.

(** A first batch with a scalar field: the adapter is built, the dataset is
    refused, the numpy iterator delivers the batch. *)
Lemma scalar_field_fails_only_tf_dataset_witness :
  exists self s1,
    __init__ 0 (store_with [batch_with_scalar]) = (Ok self, s1) /\
    get_tf_dataset keras_standardize_dtype self =
      (Err (rank_error (ndarray [] "float32" [7]%Z) 0), self) /\
    fst (fst (iter_next (get_numpy_iterator id self) s1)) = Ok batch_with_scalar.
Proof.
  destruct (scalar_field_fails_only_tf_dataset keras_standardize_dtype id 0
              (store_with [batch_with_scalar])
              {| g_body := yields [batch_with_scalar]; g_pos := 0 |} batch_with_scalar)
    as (self & s1 & Hinit & _ & _ & (it' & s' & Hnext) & _);
    [reflexivity| reflexivity| reflexivity| |].
  { apply Exists_cons_tl, Exists_cons_hd. reflexivity. }
  exists self, s1. split; [exact Hinit|].
  injection Hinit as <- <-. split; [reflexivity|]. rewrite Hnext. reflexivity.
Defined.

(** A first batch of a complex array and a scalar: the batch has a rank-0
    field, and the exception of [get_tf_dataset] is that of the dtype of the
    first field, not a rank error. *)
Lemma dtype_error_comes_before_rank_error :
  exists self s1,
    __init__ 0 (store_with [batch_complex_then_scalar]) = (Ok self, s1) /\
    Exists (fun x => shape x = []) (flatten (_first_batch self)) /\
    get_tf_dataset keras_standardize_dtype self =
      (Err (ValueError [Text "Invalid dtype: "; Text "complex128"]), self) /\
    ~ exists x rank,
        fst (get_tf_dataset keras_standardize_dtype self) = Err (rank_error x rank).
Proof.
  eexists _, _. split; [reflexivity|]. split; [|split].
  - apply Exists_cons_tl, Exists_cons_hd. reflexivity.
  - reflexivity.
  - intros (x & rank & Hx). vm_compute in Hx. discriminate Hx.
Qed.

(** Two calls of [get_tf_dataset] on the adapter of the two batches: the
    same dataset and the same adapter. *)
Lemma signature_computed_once_witness :
  let self := {| generator := 0; _first_batch := batch_1; _output_signature := None |} in
  exists ds self',
    get_tf_dataset keras_standardize_dtype self = (Ok ds, self') /\
    get_tf_dataset keras_standardize_dtype self' = (Ok ds, self').
Proof.
  intros self. eexists _, _. split; [reflexivity|].
  destruct (signature_computed_once keras_standardize_dtype self _ _ eq_refl)
    as (signature & _ & _ & Hcalls & _).
  exact (proj2 (Hcalls [])).
Defined.

(** The 2 x 3 scipy matrix becomes a sparse tensor with its two entries. *)
Lemma scipy_fields_become_sparse_tensors_witness :
  exists y,
    convert_to_tf (csr_matrix coo_2x3) = Ok y /\
    sparse_entries y = [(0, 2, 5); (1, 0, 6)]%Z.
Proof.
  destruct (scipy_fields_become_sparse_tensors keras_standardize_dtype
              (csr_matrix coo_2x3) coo_2x3)
    as ((y & Hy & _ & _ & _ & Hentries & _) & _); [reflexivity..|].
  exists y. split; [exact Hy|]. rewrite Hentries. reflexivity.
Defined.

(** A one-dimensional scipy array is of the scipy sparse convention, and
    [tf.SparseTensor] refuses its index pairs for a shape of one
    dimension. *)
Lemma one_dimensional_scipy_array_is_refused :
  is_scipy_sparse (coo_array coo_1d) = true /\
  convert_to_tf (coo_array coo_1d) = Err (not_compatible 2 1) /\
  ~ exists y, convert_to_tf (coo_array coo_1d) = Ok y.
Proof.
  split; [reflexivity|]. split; [reflexivity|].
  intros [y Hy]. vm_compute in Hy. discriminate Hy.
Qed.

(** A generator of a bare array and a batch: construction fails and the
    generator has made one step. *)
Lemma construction_pulls_exactly_one_witness :
  exists r s',
    __init__ 0 (store_with [bare_array; batch_1]) = (r, s') /\
    gens s' !! 0 = Some {| g_body := yields [bare_array; batch_1]; g_pos := 1 |} /\
    r = Err (tuple_error bare_array).
Proof.
  destruct (construction_pulls_exactly_one 0 (store_with [bare_array; batch_1])
              {| g_body := yields [bare_array; batch_1]; g_pos := 0 |} bare_array)
    as (r & s' & Hinit & _ & Hpos & Hfail & _); [reflexivity..|].
  exists r, s'. split; [exact Hinit|]. split; [exact Hpos|]. exact (Hfail eq_refl).
Defined.

(** A generator that yields nothing. *)
Lemma construction_on_empty_generator_witness :
  __init__ 0 (store_with []) = (Err StopIteration, store_with []).
Proof.
  exact (proj1 (construction_on_empty_generator 0 (store_with [])
                  {| g_body := yields []; g_pos := 0 |} eq_refl eq_refl)).
Defined.

(** An adapter whose first batch has a scalar field: [get_tf_dataset] fails
    again after a first failure and a call of another method. *)
Lemma failed_signature_is_not_cached_witness :
  let self := {| generator := 0; _first_batch := batch_with_scalar;
                 _output_signature := None |} in
  get_tf_dataset keras_standardize_dtype
    (fold_left (call keras_standardize_dtype) [Get_tf_dataset; Get_numpy_iterator] self) =
    (Err (rank_error (ndarray [] "float32" [7]%Z) 0), self).
Proof.
  intros self.
  destruct (failed_signature_is_not_cached keras_standardize_dtype self _ _ eq_refl)
    as (_ & _ & _ & Hcalls).
  exact (proj2 (proj2 (Hcalls [Get_tf_dataset; Get_numpy_iterator]))).
Defined.

(** ** The further properties on concrete generators *)

(** The first batch [([[1, 2]], [0])]: every field is valid. *)
Lemma signature_is_computed_iff_fields_are_valid_witness :
  exists self',
    _set_tf_output_signature keras_standardize_dtype
      {| generator := 0; _first_batch := batch_1; _output_signature := None |} =
      (Ok tt, self').
Proof.
  apply (proj2 (proj1 (signature_is_computed_iff_fields_are_valid keras_standardize_dtype
           {| generator := 0; _first_batch := batch_1; _output_signature := None |}
           eq_refl))).
  simpl. repeat (apply List.Forall_cons || apply List.Forall_nil);
    (split; [simpl; lia|reflexivity]).
Defined.

(** A first batch with two scalars: the one inside the list comes first. *)
Lemma first_invalid_field_is_reported_witness :
  let self := {| generator := 0; _first_batch := batch_two_scalars;
                 _output_signature := None |} in
  get_tf_dataset keras_standardize_dtype self =
    (Err (rank_error (ndarray [] "float32" [7]%Z) 0), self).
Proof.
  intros self.
  destruct (first_invalid_field_is_reported keras_standardize_dtype self
              [ndarray [1; 2] "int64" [1; 2]%Z]
              (ndarray [] "float32" [7]%Z)
              [ndarray [] "int64" [8]%Z]) as [Hrank _]; [reflexivity|reflexivity| |].
  { repeat (apply List.Forall_cons || apply List.Forall_nil);
      (split; [simpl; lia|reflexivity]). }
  exact (Hrank eq_refl).
Defined.

(** The adapter of the two batches after three method calls. *)
Lemma adapter_keeps_what_it_peeked_witness :
  exists self s1,
    __init__ 0 (store_with [batch_1; batch_2]) = (Ok self, s1) /\
    _first_batch
      (fold_left (call keras_standardize_dtype)
         [Get_tf_dataset; Get_numpy_iterator; Get_tf_dataset] self) =
      batch_1.
Proof.
  eexists _, _. split; [reflexivity|].
  exact (proj1 (proj2 (adapter_keeps_what_it_peeked keras_standardize_dtype 0
                         (store_with [batch_1; batch_2])
                         _ _ [Get_tf_dataset; Get_numpy_iterator; Get_tf_dataset]
                         eq_refl))).
Defined.

(** The batch with the 2 x 3 scipy matrix, converted twice. *)
Lemma converted_batch_is_stable_witness :
  exists batch',
    map_structure convert_to_tf batch_sparse = Ok batch' /\
    map_structure convert_to_tf batch' = Ok batch'.
Proof.
  eexists. split; [reflexivity|].
  exact (proj2 (proj2 (proj2 (converted_batch_is_stable batch_sparse _ eq_refl)))).
Defined.

(** The adapter whose first batch holds the 2 x 3 scipy matrix. *)
Lemma signature_describes_converted_batch_witness :
  exists batch' signature,
    map_structure convert_to_tf batch_sparse = Ok batch' /\
    map_structure (get_tensor_spec keras_standardize_dtype) batch' = Ok signature /\
    tree_map spec_kind_of signature =
      Node CTuple [Leaf SparseTensorSpec; Leaf TensorSpec].
Proof.
  destruct (signature_describes_converted_batch keras_standardize_dtype
              {| generator := 0; _first_batch := batch_sparse; _output_signature := None |}
              _ _ eq_refl eq_refl) as (batch' & signature & Hconv & Hsig & Hspec & _).
  { simpl. repeat constructor. }
  exists batch', signature. split; [exact Hconv|]. split; [exact Hspec|].
  injection Hsig as <-. reflexivity.
Defined.

(** Two batches: a first iterator takes one, a second one gets the other. *)
Lemma second_iteration_resumes_witness :
  exists self s1 it1 s2,
    __init__ 0 (store_with [batch_1; batch_2]) = (Ok self, s1) /\
    pull 1 (get_numpy_iterator id self) s1 = ([batch_1], it1, s2) /\
    fst (fst (pull 2 (get_numpy_iterator id self) s2)) = [batch_2].
Proof.
  destruct (second_iteration_resumes id id id 0 (store_with [batch_1; batch_2])
              {| g_body := yields [batch_1; batch_2]; g_pos := 0 |} batch_1 1 2)
    as (self & s1 & Hinit & it1 & s2 & Hfirst & (it2 & s3 & Hsecond) & _);
    [reflexivity..|].
  exists self, s1, it1, s2. split; [exact Hinit|]. split; [exact Hfirst|].
  rewrite Hsecond. reflexivity.
Defined.

(** Three batches, of which the caller takes the second. *)
Lemma elements_taken_by_the_caller_are_skipped_witness :
  exists self s1 s2,
    __init__ 0 (store_with [batch_1; batch_2; batch_of_4]) = (Ok self, s1) /\
    gen_next 0 s1 = (Ok batch_2, s2) /\
    fst (fst (pull 2 (get_numpy_iterator id self) s2)) = [batch_1; batch_of_4].
Proof.
  destruct (elements_taken_by_the_caller_are_skipped id 0
              (store_with [batch_1; batch_2; batch_of_4])
              {| g_body := yields [batch_1; batch_2; batch_of_4]; g_pos := 0 |}
              batch_1 batch_2 1)
    as (self & s1 & s2 & Hinit & Hnext & it' & s3 & Hpull); [reflexivity..|].
  exists self, s1, s2. split; [exact Hinit|]. split; [exact Hnext|].
  rewrite Hpull. reflexivity.
Defined.

(** A batch with a scipy matrix, then a dense batch. *)
Lemma dataset_generator_yields_converted_batches_witness :
  exists self s1,
    __init__ 0 (store_with [batch_sparse; batch_1]) = (Ok self, s1) /\
    fst (fst (pull 2 (get_tf_iterator self) s1)) =
      [Node CTuple [Leaf (sparse_tensor_of coo_2x3); Leaf (ndarray [2] "int64" [0; 1]%Z)];
       batch_1].
Proof.
  destruct (dataset_generator_yields_converted_batches keras_standardize_dtype 0
              (store_with [batch_sparse; batch_1])
              {| g_body := yields [batch_sparse; batch_1]; g_pos := 0 |}
              batch_sparse 2)
    as (self & s1 & Hinit & _ & it' & s' & Hpull & _); [reflexivity..| |].
  { intros b Hb. simpl in Hb.
    apply elem_of_cons in Hb as [->|Hb]; [simpl; repeat constructor|].
    apply elem_of_cons in Hb as [->|Hb]; [simpl; repeat constructor|].
    by apply elem_of_nil in Hb. }
  exists self, s1. split; [exact Hinit|]. rewrite Hpull. reflexivity.
Defined.

(** A dense batch, a batch whose scipy matrix cannot be converted, and
    another dense batch: the second one is lost. *)
Lemma failed_conversion_loses_the_batch_witness :
  exists self s1 s2,
    __init__ 0 (store_with [batch_1; batch_broken; batch_2]) = (Ok self, s1) /\
    pull 3 (get_tf_iterator self) s1 = ([batch_1], close (get_tf_iterator self), s2) /\
    fst (fst (pull 2 (get_numpy_iterator id self) s2)) = [batch_2].
Proof.
  destruct (failed_conversion_loses_the_batch id 0
              (store_with [batch_1; batch_broken; batch_2])
              {| g_body := yields [batch_1; batch_broken; batch_2]; g_pos := 0 |}
              batch_1 1 batch_broken
              (ValueError [Text "all the input array dimensions except for the concatenation axis must match exactly"])
              3 2 eq_refl eq_refl eq_refl eq_refl)
    as (self & s1 & s2 & Hinit & Hpull & _ & _ & it' & s3 & Hnext);
    [|reflexivity|lia|].
  { intros b Hb. simpl in Hb.
    apply elem_of_cons in Hb as [->|Hb]; [simpl; repeat constructor|].
    by apply elem_of_nil in Hb. }
  exists self, s1, s2. split; [exact Hinit|]. split; [exact Hpull|].
  rewrite Hnext. reflexivity.
Defined.

(** The signature of [([[1, 2]], [0])] and a batch of three samples. *)
Lemma signature_fits_other_batch_sizes_witness :
  exists ds self' signature,
    get_tf_dataset keras_standardize_dtype
      {| generator := 0; _first_batch := batch_1; _output_signature := None |} =
      (Ok ds, self') /\
    ds_output_signature ds = Some signature /\
    map_structure (get_tensor_spec keras_standardize_dtype) batch_of_3_samples =
      Ok signature.
Proof.
  destruct (signature_fits_other_batch_sizes keras_standardize_dtype
              {| generator := 0; _first_batch := batch_1; _output_signature := None |}
              _ _ batch_of_3_samples eq_refl eq_refl eq_refl)
    as (signature & Hsig & Hmap).
  - simpl. repeat constructor.
  - simpl. repeat constructor.
  - eexists _, _, signature. split; [reflexivity|]. split; [exact Hsig|exact Hmap].
Defined.

(** Two generators in one store, each with its adapter. *)
Lemma adapters_of_different_generators_are_independent_witness :
  let s := {| gens := {[ 0 := {| g_body := yields [batch_1; batch_2]; g_pos := 0 |};
                         1 := {| g_body := yields [batch_of_4]; g_pos := 0 |} ]};
              chains := ∅ |} in
  exists a1 s1 a2 s2 s3,
    __init__ 0 s = (Ok a1, s1) /\
    __init__ 1 s1 = (Ok a2, s2) /\
    snd (pull 2 (get_numpy_iterator id a2) s2) = s3 /\
    fst (fst (pull 3 (get_numpy_iterator id a1) s3)) = [batch_1; batch_2].
Proof.
  intros s.
  destruct (adapters_of_different_generators_are_independent id 0 1 s
              {| g_body := yields [batch_1; batch_2]; g_pos := 0 |}
              {| g_body := yields [batch_of_4]; g_pos := 0 |}
              batch_1 batch_of_4 2 3)
    as (a1 & s1 & a2 & s2 & Hinit1 & Hinit2 & _ & it2 & s3 & it1 & s4 & Hpull2 & Hpull1);
    [lia|reflexivity..|].
  exists a1, s1, a2, s2, s3. split; [exact Hinit1|]. split; [exact Hinit2|].
  split; [by rewrite Hpull2|]. rewrite Hpull1. reflexivity.
Defined.
